(** * Download queue orchestrator: QueueService over YoutubeService

    A shallow embedding of the backend's download queue:
    - [services/queue.service.js]   (QueueService: registry, admission,
      pause / resume / cancel / remove / retry, batch submission,
      statistics),
    - [services/youtube.service.js] (YoutubeService: worker processes,
      progress parsing, process signals, durations),
    - [services/history.service.js] (the [downloads] table: writes,
      lookups, clearing),
    - [services/settings.service.js] (cached settings, the codec of stored
      values).

    JavaScript [async] functions are written in a small resumption monad
    [Prog]: every [await] is a node of the program tree, and an event loop
    ([step]) resumes suspended continuations one at a time.  Item objects
    live in a heap and are shared by reference, as in the source.

    Left out: the bulk operations ([pauseAll], [resumeAll], [cancelAll],
    [retryAll]), which repeat the single ones over the registry; the
    command line of the worker; failures of the database itself. *)

From Stdlib Require Import String Ascii ZArith QArith Lia List.
From Stdlib Require Import DecimalString DecimalZ DecimalPos.
From stdpp Require Import base option list strings gmap.

Close Scope Q_scope.
Local Open Scope string_scope.
Local Open Scope list_scope.

(* ===================================================================== *)
(** ** JavaScript odds and ends *)

(** [a || b] on values that may be [null] / [undefined] / the empty string. *)
Definition truthy (o : option string) : option string :=
  match o with
  | Some EmptyString => None
  | _ => o
  end.

Definition or_else (o : option string) (d : option string) : option string :=
  match truthy o with
  | Some x => Some x
  | None => d
  end.

Definition or_default (o : option string) (d : string) : string :=
  match truthy o with
  | Some x => x
  | None => d
  end.

(** [hay.includes(needle)] *)
Fixpoint includes (needle hay : string) : bool :=
  if String.prefix needle hay then true
  else match hay with
       | EmptyString => false
       | String _ rest => includes needle rest
       end.

(** A JavaScript [Map]: iteration follows insertion order; [set] on a key
    that is already present replaces the value and keeps the key's place. *)
Section OrderedMap.
Context {K V : Type} `{EqDecision K}.

Definition JsMap := list (K * V).

Fixpoint map_get (k : K) (m : list (K * V)) : option V :=
  match m with
  | [] => None
  | (k', v) :: rest => if decide (k' = k) then Some v else map_get k rest
  end.

Fixpoint map_set (k : K) (v : V) (m : list (K * V)) : list (K * V) :=
  match m with
  | [] => [(k, v)]
  | (k', v') :: rest =>
      if decide (k' = k) then (k', v) :: rest else (k', v') :: map_set k v rest
  end.

Fixpoint map_delete (k : K) (m : list (K * V)) : list (K * V) :=
  match m with
  | [] => []
  | (k', v') :: rest =>
      if decide (k' = k) then rest else (k', v') :: map_delete k rest
  end.

Definition map_has (k : K) (m : list (K * V)) : bool :=
  bool_decide (is_Some (map_get k m)).
End OrderedMap.

(* ===================================================================== *)
(** ** YoutubeService.download: progress extraction from the worker's stdout *)

Definition is_digit (c : ascii) : bool :=
  ((48 <=? nat_of_ascii c) && (nat_of_ascii c <=? 57))%nat.

(** The longest prefix of decimal digits, and what follows it. *)
Fixpoint span_digits (s : string) : string * string :=
  match s with
  | EmptyString => (EmptyString, EmptyString)
  | String c rest =>
      if is_digit c
      then let '(d, r) := span_digits rest in (String c d, r)
      else (EmptyString, s)
  end.

(** The pattern of the handler (one or more digits, an optional dot, any
    number of digits, then a percent sign) anchored at the head of [s]:
    the captured group, which is the text before the percent sign.
    Backtracking cannot help a failed attempt: giving back digits or the
    dot only moves the place where [%] is required onto a digit or a dot. *)
Definition match_percent_here (s : string) : option string :=
  let '(d1, r1) := span_digits s in
  match d1 with
  | EmptyString => None
  | _ =>
      match r1 with
      | String "%" _ => Some d1
      | String "." r2 =>
          let '(d2, r3) := span_digits r2 in
          match r3 with
          | String "%" _ => Some (d1 +:+ "." +:+ d2)
          | _ => None
          end
      | _ => None
      end
  end.

(** [output.match] with that pattern: the leftmost match, if any. *)
Fixpoint match_percent (s : string) : option string :=
  match match_percent_here s with
  | Some g => Some g
  | None =>
      match s with
      | EmptyString => None
      | String _ rest => match_percent rest
      end
  end.

Module Worker.
Section ProgressGuard.
(** The number type of the runtime and what the handler needs of it:
    [parseFloat], the comparison [<] and the constant [100]. *)
Variable F : Type.
Variable parseFloat : string -> F.
Variable lt : F -> F -> bool.
Variable hundred : F.

Inductive SubStatus := sub_downloading | sub_converting.

(** The payload of YoutubeService's 'progress' event. *)
Record ProgressEvent (Id : Type) := mkProgressEvent {
  pe_id : Id;
  pe_progress : F;
  pe_status : SubStatus
}.
Arguments mkProgressEvent {Id}.
Arguments pe_id {Id}.
Arguments pe_progress {Id}.
Arguments pe_status {Id}.

(** One run of the stdout 'data' handler, as far as progress goes.
    [lastProgress] is the closure variable of [download]; the result is
    its new value and the event emitted by this chunk, if any. *)
Definition stdout_progress {Id} (downloadId : Id) (lastProgress : F) (output : string)
  : F * option (ProgressEvent Id) :=
  match match_percent output with
  | Some g =>
      let progress := parseFloat g in
      if lt lastProgress progress
      then (progress,
            Some (mkProgressEvent downloadId progress
                    (if lt progress hundred then sub_downloading else sub_converting)))
      else (lastProgress, None)
  | None => (lastProgress, None)
  end.

(** The whole stdout stream of one worker: the chunks in arrival order. *)
Fixpoint stdout_stream {Id} (downloadId : Id) (lastProgress : F) (chunks : list string)
  : list (ProgressEvent Id) :=
  match chunks with
  | [] => []
  | c :: rest =>
      let '(last', ev) := stdout_progress downloadId lastProgress c in
      match ev with
      | Some e => e :: stdout_stream downloadId last' rest
      | None => stdout_stream downloadId last' rest
      end
  end.

End ProgressGuard.
End Worker.

(** Every element is below everything that follows it. *)
Fixpoint increasing {F : Type} (lt : F -> F -> bool) (l : list F) : Prop :=
  match l with
  | [] => True
  | x :: rest => Forall (fun y => lt x y = true) rest /\ increasing lt rest
  end.

Arguments Worker.mkProgressEvent {F Id}.
Arguments Worker.pe_id {F Id}.
Arguments Worker.pe_progress {F Id}.
Arguments Worker.pe_status {F Id}.
Arguments Worker.stdout_progress {F} parseFloat lt hundred {Id}.
Arguments Worker.stdout_stream {F} parseFloat lt hundred {Id}.

(** Progress numbers of the running system: the decimal that the pattern
    captured, read exactly. *)
Fixpoint digits_value (acc : N) (s : string) : N :=
  match s with
  | EmptyString => acc
  | String c rest =>
      if is_digit c
      then digits_value (acc * 10 + N.of_nat (nat_of_ascii c - 48)) rest
      else acc
  end.

Fixpoint pow10 (n : nat) : positive :=
  match n with
  | O => 1%positive
  | S m => (10 * pow10 m)%positive
  end.

Definition parseFloat (g : string) : Q :=
  let '(int_part, r) := span_digits g in
  let frac_part :=
    match r with
    | String "." r2 => fst (span_digits r2)
    | _ => EmptyString
    end in
  (inject_Z (Z.of_N (digits_value 0 int_part))
   + (Z.of_N (digits_value 0 frac_part) # pow10 (String.length frac_part)))%Q.

Definition Qltb (x y : Q) : bool := negb (Qle_bool y x).

(* ===================================================================== *)
(** ** Data model *)

(** [uuidv4()] values: fresh identifiers, drawn from a counter. *)
Definition Id := nat.
(** References to item objects and handles of worker processes. *)
Definition Addr := nat.
Definition Pid := nat.

(** The values the [status] field takes.  ['converting'] is written by the
    'progress' listener once a worker reports 100%. *)
Inductive Status :=
  Pending | Downloading | Paused | Completed | Error | Cancelled | Converting.

#[global] Instance Status_eq_dec : EqDecision Status.
Proof. solve_decision. Defined.

Inductive Kind := video | playlist.

#[global] Instance Kind_eq_dec : EqDecision Kind.
Proof. solve_decision. Defined.

(** An item object of [QueueService.queue].  Display-only fields
    (thumbnail, duration, playlistName, startTime, finishedAt) are left out:
    no branch of the queue reads them. *)
Record Item := mkItem {
  item_id : Id;
  url : string;
  title : string;
  status : Status;
  progress : Q;
  createdAt : nat;
  kind : Kind;
  playlistId : option Id;
  channel : option string;
  item_error : option string;
  filePath : option string
}.

Definition set_title (v : string) (it : Item) : Item :=
  mkItem (item_id it) (url it) v (status it) (progress it) (createdAt it)
         (kind it) (playlistId it) (channel it) (item_error it) (filePath it).
Definition set_status (v : Status) (it : Item) : Item :=
  mkItem (item_id it) (url it) (title it) v (progress it) (createdAt it)
         (kind it) (playlistId it) (channel it) (item_error it) (filePath it).
Definition set_progress (v : Q) (it : Item) : Item :=
  mkItem (item_id it) (url it) (title it) (status it) v (createdAt it)
         (kind it) (playlistId it) (channel it) (item_error it) (filePath it).
Definition set_channel (v : option string) (it : Item) : Item :=
  mkItem (item_id it) (url it) (title it) (status it) (progress it) (createdAt it)
         (kind it) (playlistId it) v (item_error it) (filePath it).
Definition set_error (v : option string) (it : Item) : Item :=
  mkItem (item_id it) (url it) (title it) (status it) (progress it) (createdAt it)
         (kind it) (playlistId it) (channel it) v (filePath it).
Definition set_filePath (v : option string) (it : Item) : Item :=
  mkItem (item_id it) (url it) (title it) (status it) (progress it) (createdAt it)
         (kind it) (playlistId it) (channel it) (item_error it) v.

(** What a dangling reference would read; no reference dangles, since
    objects are never freed. *)
Definition blank_item : Item :=
  mkItem 0 EmptyString EmptyString Pending 0%Q 0 video None None None None.

(** A row of the [downloads] table. *)
Record Row := mkRow {
  r_id : Id;
  r_url : string;
  r_title : string;
  r_status : Status;
  r_created_at : nat;
  r_finished_at : option nat;
  r_file_path : option string;
  r_error_message : option string;
  r_type : Kind;
  r_playlist_id : option Id;
  r_progress : Q;
  r_channel : option string;
  r_file_size : option nat
}.

Definition DEFAULT_MAX_CONCURRENT : nat := 2.

(** The settings object; only [maxConcurrent] is read by the queue. *)
Record Settings := mkSettings { maxConcurrent : nat }.

Definition DEFAULT_SETTINGS : Settings := mkSettings 2.

(** One entry of the flat-playlist JSON printed by the worker for [getInfo]. *)
Record VideoInfo := mkVideoInfo {
  v_url : option string;
  v_webpage_url : option string;
  v_id : string;
  v_title : option string;
  v_uploader : option string;
  v_channel : option string
}.

(** The object [getVideoDetails] resolves to. *)
Record Details := mkDetails {
  d_title : string;
  d_uploader : option string
}.

Inductive Reason := in_queue | already_downloaded.

(** An element of [skippedItems]. *)
Record Skipped := mkSkipped {
  sk_url : string;
  sk_title : string;
  reason : Reason;
  existingId : Id;
  downloadedAt : option nat
}.

(** Events QueueService emits to its subscribers; item payloads are the
    copies [{ ...item }] taken when the event is emitted. *)
Inductive Event :=
| EvAdded (items : list Item)
| EvStatusChange (it : Item)
| EvProgress (it : Item)
| EvComplete (it : Item) (fileSize : nat)
| EvError (it : Item)
| EvRemoved (id : Id)
| EvCleared.

(** Writes and reads of HistoryService and SettingsService. *)
Inductive DbWrite :=
| HistoryAdd (id : Id) (u t : string) (k : Kind) (pl : option Id) (ch : option string)
| UpdateStatus (id : Id) (st : Status) (file : option string) (errorMessage : option string)
| UpdateProgress (id : Id) (p : Q)
| UpdateTitle (id : Id) (t : string)
| UpdateChannel (id : Id) (ch : string)
| UpdateStats (id : Id) (fileSize : nat) (ch : option string)
| SettingsUpdate (n : nat).

Inductive DbRead : Type -> Type :=
| GetById (id : Id) : DbRead (option Row)
| ExistsInQueue (u : string) : DbRead (option Row)
| WasDownloadedSuccessfully (u : string) : DbRead (option Row)
| SettingsGetAll : DbRead Settings.

Inductive Signal := SIGSTOP | SIGCONT | SIGTERM.

(** What an outside observer can see, in the order it happens. *)
Inductive Obs :=
| Emitted (e : Event)
| Persisted (w : DbWrite)
| Spawned (pid : Pid) (id : Id)
| Signalled (pid : Pid) (sig : Signal)
| Replied (r : string + unit)
| Unhandled (e : string).

(** The closure of one [download] call: the job it works for, the
    [lastProgress] variable and whether the process has closed. *)
Record Proc := mkProc {
  p_downloadId : Id;
  p_lastProgress : Q;
  p_closed : bool
}.

(** All mutable state: QueueService ([heap], [queue], [activeDownloads]),
    YoutubeService ([activeProcesses], [procs]), the database
    ([downloads], [settingsTable]), SettingsService ([cachedSettings]),
    the file system as far as [statSync] sees it, the identifier supply,
    the clock, and the observable trace. *)
Record Store := mkStore {
  heap : list Item;
  queue : list (Id * Addr);
  activeDownloads : Z;
  activeProcesses : gmap nat (Pid * bool);
  procs : list Proc;
  downloads : list Row;
  settingsTable : option nat;
  cachedSettings : option Settings;
  files : list (string * nat);
  nextId : nat;
  now : nat;
  trace : list Obs
}.

Definition with_heap (f : list Item -> list Item) (s : Store) : Store :=
  mkStore (f (heap s)) (queue s) (activeDownloads s) (activeProcesses s) (procs s)
          (downloads s) (settingsTable s) (cachedSettings s) (files s) (nextId s)
          (now s) (trace s).
Definition with_queue (f : list (Id * Addr) -> list (Id * Addr)) (s : Store) : Store :=
  mkStore (heap s) (f (queue s)) (activeDownloads s) (activeProcesses s) (procs s)
          (downloads s) (settingsTable s) (cachedSettings s) (files s) (nextId s)
          (now s) (trace s).
Definition with_activeDownloads (f : Z -> Z) (s : Store) : Store :=
  mkStore (heap s) (queue s) (f (activeDownloads s)) (activeProcesses s) (procs s)
          (downloads s) (settingsTable s) (cachedSettings s) (files s) (nextId s)
          (now s) (trace s).
Definition with_activeProcesses
    (f : gmap nat (Pid * bool) -> gmap nat (Pid * bool)) (s : Store) : Store :=
  mkStore (heap s) (queue s) (activeDownloads s) (f (activeProcesses s)) (procs s)
          (downloads s) (settingsTable s) (cachedSettings s) (files s) (nextId s)
          (now s) (trace s).
Definition with_procs (f : list Proc -> list Proc) (s : Store) : Store :=
  mkStore (heap s) (queue s) (activeDownloads s) (activeProcesses s) (f (procs s))
          (downloads s) (settingsTable s) (cachedSettings s) (files s) (nextId s)
          (now s) (trace s).
Definition with_downloads (f : list Row -> list Row) (s : Store) : Store :=
  mkStore (heap s) (queue s) (activeDownloads s) (activeProcesses s) (procs s)
          (f (downloads s)) (settingsTable s) (cachedSettings s) (files s) (nextId s)
          (now s) (trace s).
Definition with_settingsTable (v : option nat) (s : Store) : Store :=
  mkStore (heap s) (queue s) (activeDownloads s) (activeProcesses s) (procs s)
          (downloads s) v (cachedSettings s) (files s) (nextId s)
          (now s) (trace s).
Definition with_cachedSettings (v : option Settings) (s : Store) : Store :=
  mkStore (heap s) (queue s) (activeDownloads s) (activeProcesses s) (procs s)
          (downloads s) (settingsTable s) v (files s) (nextId s)
          (now s) (trace s).
Definition with_files (f : list (string * nat) -> list (string * nat)) (s : Store) : Store :=
  mkStore (heap s) (queue s) (activeDownloads s) (activeProcesses s) (procs s)
          (downloads s) (settingsTable s) (cachedSettings s) (f (files s)) (nextId s)
          (now s) (trace s).
Definition with_nextId (v : nat) (s : Store) : Store :=
  mkStore (heap s) (queue s) (activeDownloads s) (activeProcesses s) (procs s)
          (downloads s) (settingsTable s) (cachedSettings s) (files s) v
          (now s) (trace s).
Definition with_now (v : nat) (s : Store) : Store :=
  mkStore (heap s) (queue s) (activeDownloads s) (activeProcesses s) (procs s)
          (downloads s) (settingsTable s) (cachedSettings s) (files s) (nextId s)
          v (trace s).
Definition observe (o : Obs) (s : Store) : Store :=
  mkStore (heap s) (queue s) (activeDownloads s) (activeProcesses s) (procs s)
          (downloads s) (settingsTable s) (cachedSettings s) (files s) (nextId s)
          (now s) (trace s ++ [o]).

(** The state of a freshly started server. *)
Definition init : Store :=
  mkStore [] [] 0%Z ∅ [] [] None None [] 0 0 [].

(* ===================================================================== *)
(** ** The registry and the heap of item objects *)

Definition queue_get (id : Id) (s : Store) : option Addr := map_get id (queue s).

Definition deref (a : Addr) (s : Store) : Item := default blank_item (heap s !! a).

Definition update_item (a : Addr) (f : Item -> Item) (s : Store) : Store :=
  with_heap (alter f a) s.

Definition alloc (it : Item) (s : Store) : Addr * Store :=
  (length (heap s), with_heap (fun h => h ++ [it]) s).

(** [getQueue()]: the item objects in the registry's iteration order. *)
Definition getQueue (s : Store) : list Item :=
  map (fun e => deref (snd e) s) (queue s).

Definition in_flight (st : Status) : bool :=
  match st with
  | Pending | Downloading | Paused => true
  | _ => false
  end.

Definition terminal (st : Status) : bool :=
  match st with
  | Completed | Error | Cancelled => true
  | _ => false
  end.

(** [existsInMemoryQueue(url)] *)
Definition existsInMemoryQueue (u : string) (s : Store) : option Item :=
  List.find (fun it => bool_decide (url it = u) && in_flight (status it)) (getQueue s).

(** The loop of [processNext]: the first key whose item is pending. *)
Definition first_pending (s : Store) : option Id :=
  fst <$> List.find (fun e => bool_decide (status (deref (snd e) s) = Pending)) (queue s).

(** [getStats().downloading] *)
Definition count_status (st : Status) (s : Store) : nat :=
  length (filter (fun it => status it = st) (getQueue s)).

(* ===================================================================== *)
(** ** HistoryService and SettingsService: the tables *)

Definition on_row (id : Id) (f : Row -> Row) (rows : list Row) : list Row :=
  map (fun r => if decide (r_id r = id) then f r else r) rows.

Definition row_status (st : Status) (file err : option string) (t : nat) (r : Row) : Row :=
  mkRow (r_id r) (r_url r) (r_title r) st (r_created_at r)
        (if terminal st then Some t else r_finished_at r)
        (match truthy file with Some f => Some f | None => r_file_path r end)
        (match truthy err with Some e => Some e | None => r_error_message r end)
        (r_type r) (r_playlist_id r) (r_progress r) (r_channel r) (r_file_size r).

Definition row_progress (p : Q) (r : Row) : Row :=
  mkRow (r_id r) (r_url r) (r_title r) (r_status r) (r_created_at r) (r_finished_at r)
        (r_file_path r) (r_error_message r) (r_type r) (r_playlist_id r) p
        (r_channel r) (r_file_size r).

Definition row_title (t : string) (r : Row) : Row :=
  mkRow (r_id r) (r_url r) t (r_status r) (r_created_at r) (r_finished_at r)
        (r_file_path r) (r_error_message r) (r_type r) (r_playlist_id r) (r_progress r)
        (r_channel r) (r_file_size r).

Definition row_channel (c : option string) (r : Row) : Row :=
  mkRow (r_id r) (r_url r) (r_title r) (r_status r) (r_created_at r) (r_finished_at r)
        (r_file_path r) (r_error_message r) (r_type r) (r_playlist_id r) (r_progress r)
        c (r_file_size r).

Definition row_file_size (n : nat) (r : Row) : Row :=
  mkRow (r_id r) (r_url r) (r_title r) (r_status r) (r_created_at r) (r_finished_at r)
        (r_file_path r) (r_error_message r) (r_type r) (r_playlist_id r) (r_progress r)
        (r_channel r) (Some n).

(** The [progress] column is an INTEGER: a fractional value is refused by
    the database, and the caller swallows that rejection. *)
Definition is_integer (p : Q) : bool := (Qnum p mod Zpos (Qden p) =? 0)%Z.

(** The effect of a write on the tables; timestamps are the time at which
    the statement runs. *)
Definition apply_write (w : DbWrite) (s : Store) : Store :=
  match w with
  | HistoryAdd id u t k pl ch =>
      with_downloads
        (fun rows => rows ++ [mkRow id u t Pending (now s) None None None k pl 0%Q ch None]) s
  | UpdateStatus id st file err =>
      with_downloads (on_row id (row_status st file err (now s))) s
  | UpdateProgress id p =>
      if is_integer p then with_downloads (on_row id (row_progress p)) s else s
  | UpdateTitle id t => with_downloads (on_row id (row_title t)) s
  | UpdateChannel id c => with_downloads (on_row id (row_channel (Some c))) s
  | UpdateStats id n c =>
      with_downloads
        (on_row id (fun r => row_file_size n
                               (match c with Some _ => row_channel c r | None => r end))) s
  | SettingsUpdate n => with_settingsTable (Some n) s
  end.

Definition db_write (w : DbWrite) (s : Store) : Store :=
  observe (Persisted w) (apply_write w s).

(** [ORDER BY ... DESC LIMIT 1]: the row that comes after all others;
    among equals, the one met first. *)
Fixpoint pick_last (after : Row -> Row -> bool) (best : option Row) (rows : list Row)
  : option Row :=
  match rows with
  | [] => best
  | r :: rest =>
      match best with
      | None => pick_last after (Some r) rest
      | Some b => pick_last after (if after r b then Some r else Some b) rest
      end
  end.

Definition created_after (a b : Row) : bool := (r_created_at b <? r_created_at a)%nat.

(** [finished_at DESC]: NULL sorts first. *)
Definition finished_after (a b : Row) : bool :=
  match r_finished_at a, r_finished_at b with
  | None, Some _ => true
  | Some x, Some y => (y <? x)%nat
  | _, _ => false
  end.

(** [historyService.existsInQueue(url)] *)
Definition existsInQueue (u : string) (rows : list Row) : option Row :=
  pick_last created_after None
    (List.filter (fun r => bool_decide (r_url r = u) && in_flight (r_status r)) rows).

(** [historyService.wasDownloadedSuccessfully(url)] *)
Definition wasDownloadedSuccessfully (u : string) (rows : list Row) : option Row :=
  pick_last finished_after None
    (List.filter (fun r => bool_decide (r_url r = u) && bool_decide (r_status r = Completed)) rows).

(** [historyService.getById(id)] *)
Definition getById (id : Id) (rows : list Row) : option Row :=
  List.find (fun r => bool_decide (r_id r = id)) rows.

(** [settingsService.getAll()]: the stored values over the defaults. *)
Definition getAll (s : Store) : Settings :=
  match settingsTable s with
  | Some n => mkSettings n
  | None => DEFAULT_SETTINGS
  end.

Definition db_read {R} (q : DbRead R) (s : Store) : R :=
  match q in DbRead R return R with
  | GetById id => getById id (downloads s)
  | ExistsInQueue u => existsInQueue u (downloads s)
  | WasDownloadedSuccessfully u => wasDownloadedSuccessfully u (downloads s)
  | SettingsGetAll => getAll s
  end.

(* ===================================================================== *)
(** ** Asynchronous programs *)

(** What a suspended computation waits for, indexed by what it receives:
    - [WTick]: a promise that is already resolved (a microtask);
    - [WWrite], [WRead]: a query sent to the database;
    - [WInfo], [WDetails]: a worker printing JSON ([getInfo],
      [getVideoDetails]); either may reject with a message;
    - [WDownload]: the promise of [download], settled by the process. *)
Inductive Wait : Type -> Type :=
| WTick : Wait unit
| WWrite (w : DbWrite) : Wait unit
| WRead {R : Type} (q : DbRead R) : Wait R
| WInfo (u : string) : Wait (string + list VideoInfo)
| WDetails (u : string) : Wait (string + Details)
| WDownload (pid : Pid) : Wait (string + option string).

(** The body of an [async] function.  [Fork] is a call of an async function
    whose promise is not awaited; [CallProcessNext] is [this.processNext()],
    kept as a named call because the scheduler and the handlers call each
    other in a cycle. *)
Inductive Prog (A : Type) : Type :=
| Ret (a : A)
| Throw (e : string)
| Sync {B : Type} (f : Store -> B * Store) (k : B -> Prog A)
| Await {R : Type} (w : Wait R) (k : R -> Prog A)
| Fork (child : Prog unit) (k : Prog A)
| CallProcessNext (k : Prog A).

Arguments Ret {A}.
Arguments Throw {A}.
Arguments Sync {A B}.
Arguments Await {A R}.
Arguments Fork {A}.
Arguments CallProcessNext {A}.

Fixpoint bind {A B : Type} (p : Prog A) (f : A -> Prog B) : Prog B :=
  match p with
  | Ret a => f a
  | Throw e => Throw e
  | Sync g k => Sync g (fun b => bind (k b) f)
  | Await w k => Await w (fun r => bind (k r) f)
  | Fork c k => Fork c (bind k f)
  | CallProcessNext k => CallProcessNext (bind k f)
  end.

(** [try { p } catch (e) { h e }] *)
Fixpoint catch {A : Type} (p : Prog A) (h : string -> Prog A) : Prog A :=
  match p with
  | Ret a => Ret a
  | Throw e => h e
  | Sync g k => Sync g (fun b => catch (k b) h)
  | Await w k => Await w (fun r => catch (k r) h)
  | Fork c k => Fork c (catch k h)
  | CallProcessNext k => CallProcessNext (catch k h)
  end.

#[global] Instance Prog_ret : MRet Prog := @Ret.
#[global] Instance Prog_bind : MBind Prog := fun A B f p => bind p f.

Definition gets {B} (f : Store -> B) : Prog B := Sync (fun s => (f s, s)) Ret.
Definition modify (f : Store -> Store) : Prog unit := Sync (fun s => (tt, f s)) Ret.
Definition await {R} (w : Wait R) : Prog R := Await w Ret.
Definition emit (e : Event) : Prog unit := modify (observe (Emitted e)).
Definition when (b : bool) (p : Prog unit) : Prog unit := if b then p else Ret tt.

(** An awaited promise that may reject. *)
Definition settled {R} (w : Wait (string + R)) : Prog R :=
  Await w (fun r => match r with inl e => Throw e | inr x => Ret x end).

Definition uuidv4 : Prog Id :=
  Sync (fun s => (nextId s, with_nextId (S (nextId s)) s)) Ret.

(* ===================================================================== *)
(** ** SettingsService and HistoryService calls *)

(** [settingsService.getCached()] *)
Definition getCached : Prog Settings :=
  c ← gets cachedSettings;
  match c with
  | Some st => await WTick;; mret st
  | None =>
      st ← await (WRead SettingsGetAll);
      modify (with_cachedSettings (Some st));;
      mret st
  end.

(** [settingsService.update({ maxConcurrent })], with its validation. *)
Definition update_settings (n : nat) : Prog Settings :=
  if ((n <? 1) || (5 <? n))%nat
  then Throw "maxConcurrent deve ser um numero entre 1 e 5"
  else
    await (WWrite (SettingsUpdate n));;
    modify (with_cachedSettings None);;
    st ← await (WRead SettingsGetAll);
    modify (with_cachedSettings (Some st));;
    mret st.

Definition updateStatus (id : Id) (st : Status) (file err : option string) : Prog unit :=
  await (WWrite (UpdateStatus id st file err)).

(* ===================================================================== *)
(** ** QueueService: listeners of the worker adapter's events *)

Definition decrement_active : Prog unit :=
  modify (with_activeDownloads (fun n => n - 1)%Z).

(** [youtubeService.on('progress', ...)] *)
Definition on_progress (d : Worker.ProgressEvent Q Id) : Prog unit :=
  a ← gets (queue_get (Worker.pe_id d));
  match a with
  | Some a =>
      modify (update_item a (fun it =>
        set_status (match Worker.pe_status d with
                    | Worker.sub_downloading => Downloading
                    | Worker.sub_converting => Converting
                    end)
                   (set_progress (Worker.pe_progress d) it)));;
      Fork (catch (await (WWrite (UpdateProgress (Worker.pe_id d) (Worker.pe_progress d))))
                  (fun _ => Ret tt))
           (it ← gets (deref a); emit (EvProgress it))
  | None => Ret tt
  end.

(** [handleComplete(id, filePath)].  The statistics are saved when
    [fileSize > 0 || downloadSpeed > 0]; the speed is only positive when
    the size is, so the size decides.  The speed itself, a quotient of
    doubles, is not part of the payload here. *)
Definition handleComplete (id : Id) (file : option string) : Prog unit :=
  a ← gets (queue_get id);
  match a with
  | Some a =>
      modify (update_item a (fun it =>
        set_filePath file (set_progress 100%Q (set_status Completed it))));;
      updateStatus id Completed file None;;
      fileSize ← gets (fun s =>
        match truthy file with
        | Some f => default 0 (map_get f (files s))
        | None => 0
        end);
      it ← gets (deref a);
      when (0 <? fileSize)%nat
        (catch (await (WWrite (UpdateStats id fileSize (channel it)))) (fun _ => Ret tt));;
      it ← gets (deref a);
      emit (EvComplete it fileSize)
  | None => Ret tt
  end;;
  decrement_active;;
  CallProcessNext (Ret tt).

(** [handleError(id, errorMessage)] *)
Definition handleError (id : Id) (errorMessage : string) : Prog unit :=
  a ← gets (queue_get id);
  match a with
  | Some a =>
      modify (update_item a (fun it => set_error (Some errorMessage) (set_status Error it)));;
      updateStatus id Error None (Some errorMessage);;
      it ← gets (deref a);
      emit (EvError it)
  | None => Ret tt
  end;;
  decrement_active;;
  CallProcessNext (Ret tt).

(** [youtubeService.on('paused', ...)] *)
Definition on_paused (id : Id) : Prog unit :=
  a ← gets (queue_get id);
  match a with
  | Some a =>
      modify (update_item a (set_status Paused));;
      it ← gets (deref a);
      emit (EvStatusChange it)
  | None => Ret tt
  end.

(** [youtubeService.on('resumed', ...)] *)
Definition on_resumed (id : Id) : Prog unit :=
  a ← gets (queue_get id);
  match a with
  | Some a =>
      modify (update_item a (set_status Downloading));;
      it ← gets (deref a);
      emit (EvStatusChange it)
  | None => Ret tt
  end.

(** [youtubeService.on('cancelled', async ...)] *)
Definition on_cancelled (id : Id) : Prog unit :=
  a ← gets (queue_get id);
  match a with
  | Some a =>
      modify (update_item a (set_status Cancelled));;
      updateStatus id Cancelled None None;;
      it ← gets (deref a);
      emit (EvStatusChange it);;
      decrement_active;;
      CallProcessNext (Ret tt)
  | None => Ret tt
  end.

(* ===================================================================== *)
(** ** YoutubeService: process control *)

Definition kill (pid : Pid) (sig : Signal) : Prog unit :=
  modify (observe (Signalled pid sig)).

(** [youtubeService.pause(downloadId)] *)
Definition yt_pause (id : Id) : Prog bool :=
  e ← gets (fun s => activeProcesses s !! id);
  match e with
  | Some (pid, false) =>
      kill pid SIGSTOP;;
      modify (with_activeProcesses (insert id (pid, true)));;
      on_paused id;;
      mret true
  | _ => mret false
  end.

(** [youtubeService.resume(downloadId)] *)
Definition yt_resume (id : Id) : Prog bool :=
  e ← gets (fun s => activeProcesses s !! id);
  match e with
  | Some (pid, true) =>
      kill pid SIGCONT;;
      modify (with_activeProcesses (insert id (pid, false)));;
      on_resumed id;;
      mret true
  | _ => mret false
  end.

(** [youtubeService.cancel(downloadId)] *)
Definition yt_cancel (id : Id) : Prog bool :=
  e ← gets (fun s => activeProcesses s !! id);
  match e with
  | Some (pid, was_paused) =>
      when was_paused (kill pid SIGCONT);;
      kill pid SIGTERM;;
      modify (with_activeProcesses (delete id));;
      Fork (on_cancelled id) (mret true)
  | None => mret false
  end.

(** [spawn(YT_DLP_PATH, args)] and the registration that follows it. *)
Definition spawn (id : Id) : Prog Pid :=
  Sync (fun s =>
          let pid := length (procs s) in
          (pid,
           observe (Spawned pid id)
             (with_activeProcesses (insert id (pid, false))
                (with_procs (fun ps => ps ++ [mkProc id 0%Q false]) s))))
       Ret.

(** [youtubeService.download(downloadId, url, title)]: resolves to the
    output file, rejects with the process's failure. *)
Definition download (id : Id) (u t : string) : Prog (option string) :=
  getCached;;
  pid ← spawn id;
  settled (WDownload pid).

(** [youtubeService.getVideoDetails(url)] and [getInfo(url)] *)
Definition getVideoDetails (u : string) : Prog Details := settled (WDetails u).
Definition getInfo (u : string) : Prog (list VideoInfo) := settled (WInfo u).

(* ===================================================================== *)
(** ** QueueService: admission *)

Definition is_truthy (o : option string) : bool := bool_decide (is_Some (truthy o)).

(** [startDownload(id)] *)
Definition startDownload (id : Id) : Prog unit :=
  a ← gets (queue_get id);
  match a with
  | None => Ret tt
  | Some a =>
      modify (with_activeDownloads (fun n => n + 1)%Z);;
      modify (update_item a (fun it => set_progress 0%Q (set_status Downloading it)));;
      updateStatus id Downloading None None;;
      it ← gets (deref a);
      emit (EvStatusChange it);;
      catch
        (it ← gets (deref a);
         when (bool_decide (title it = "Carregando...") || negb (is_truthy (channel it)))
           (catch
              (details ← getVideoDetails (url it);
               modify (update_item a (fun it =>
                 set_channel (or_else (d_uploader details) (channel it))
                             (set_title (d_title details) it)));;
               await (WWrite (UpdateTitle id (d_title details)));;
               match truthy (d_uploader details) with
               | Some up => await (WWrite (UpdateChannel id up))
               | None => Ret tt
               end;;
               it ← gets (deref a);
               emit (EvStatusChange it))
              (fun _ => Ret tt));;
         it ← gets (deref a);
         download id (url it) (title it);;
         Ret tt)
        (fun e => Fork (handleError id e) (Ret tt))
  end.

(** [settings.maxConcurrent || DEFAULT_MAX_CONCURRENT] *)
Definition limit_of (st : Settings) : nat :=
  match maxConcurrent st with
  | O => DEFAULT_MAX_CONCURRENT
  | n => n
  end.

(** [processNext()] after its settings have arrived. *)
Definition start_next (st : Settings) : Prog unit :=
  active ← gets activeDownloads;
  if (Z.of_nat (limit_of st) <=? active)%Z
  then Ret tt
  else
    next ← gets first_pending;
    match next with
    | Some id => Fork (startDownload id) (Ret tt)
    | None => Ret tt
    end.

(** [processNext()] *)
Definition processNext : Prog unit :=
  st ← getCached;
  start_next st.

(* ===================================================================== *)
(** ** QueueService: submission *)

(** [videoInfo.url || videoInfo.webpage_url || `https://www.youtube.com/watch?v=${videoInfo.id}`] *)
Definition video_url (v : VideoInfo) : string :=
  or_default (or_else (v_url v) (v_webpage_url v))
             ("https://www.youtube.com/watch?v=" +:+ v_id v).

(** The duplicate checks of [add], run when [force] is off. *)
Definition check_duplicate (v : VideoInfo) : Prog (option Skipped) :=
  let videoUrl := video_url v in
  inMemoryQueue ← gets (existsInMemoryQueue videoUrl);
  match inMemoryQueue with
  | Some it =>
      mret (Some (mkSkipped videoUrl (or_default (v_title v) (title it))
                            in_queue (item_id it) None))
  | None =>
      inQueue ← await (WRead (ExistsInQueue videoUrl));
      match inQueue with
      | Some r =>
          mret (Some (mkSkipped videoUrl (or_default (v_title v) (r_title r))
                                in_queue (r_id r) None))
      | None =>
          downloaded ← await (WRead (WasDownloadedSuccessfully videoUrl));
          match downloaded with
          | Some r =>
              mret (Some (mkSkipped videoUrl (or_default (v_title v) (r_title r))
                                    already_downloaded (r_id r) (r_finished_at r)))
          | None => mret None
          end
      end
  end.

(** One turn of the loop over [info.items]: a skip, or the new item. *)
Definition add_one (k : Kind) (force : bool) (pl : option Id) (v : VideoInfo)
  : Prog (Skipped + Addr) :=
  dup ← (if force then mret None else check_duplicate v);
  match dup with
  | Some sk => mret (inl sk)
  | None =>
      id ← uuidv4;
      t ← gets now;
      let ch := or_else (v_uploader v) (v_channel v) in
      let item := mkItem id (video_url v) (or_default (v_title v) "Carregando...")
                         Pending 0%Q t k pl ch None None in
      a ← Sync (alloc item) Ret;
      modify (with_queue (map_set id a));;
      await (WWrite (HistoryAdd id (video_url v) (title item) k pl ch));;
      mret (inr a)
  end.

Fixpoint add_loop (k : Kind) (force : bool) (pl : option Id) (vs : list VideoInfo)
    (items : list Addr) (skippedItems : list Skipped)
  : Prog (list Addr * list Skipped) :=
  match vs with
  | [] => mret (items, skippedItems)
  | v :: rest =>
      r ← add_one k force pl v;
      match r with
      | inl sk => add_loop k force pl rest items (skippedItems ++ [sk])
      | inr a => add_loop k force pl rest (items ++ [a]) skippedItems
      end
  end.

(** [add(url, type, { force })]: the created items (as references) and
    the skipped ones. *)
Definition add (u : string) (k : Kind) (force : bool) : Prog (list Addr * list Skipped) :=
  catch
    (info ← getInfo u;
     pl ← match k with
          | playlist => id ← uuidv4; mret (Some id)
          | video => mret None
          end;
     r ← add_loop k force pl info [] [];
     match fst r with
     | [] => Ret tt
     | _ :: _ =>
         its ← gets (fun s => map (fun a => deref a s) (fst r));
         emit (EvAdded its);;
         CallProcessNext (Ret tt)
     end;;
     mret r)
    (fun e => Throw ("Erro ao adicionar à fila: " +:+ e)).

(** The object [addBatch] fills in. *)
Record BatchResult := mkBatch {
  success : nat;
  failed : nat;
  skipped : nat;
  b_items : list Addr;
  b_skippedItems : list Skipped;
  errors : list (string * string)
}.

Fixpoint addBatch_loop (urls : list string) (k : Kind) (force : bool) (results : BatchResult)
  : Prog BatchResult :=
  match urls with
  | [] => mret results
  | u :: rest =>
      results' ←
        catch
          (r ← add u k force;
           mret (mkBatch (success results + length (fst r)) (failed results)
                         (skipped results + length (snd r))
                         (b_items results ++ fst r)
                         (b_skippedItems results ++ snd r)
                         (errors results)))
          (fun e =>
             mret (mkBatch (success results) (failed results + 1) (skipped results)
                           (b_items results) (b_skippedItems results)
                           (errors results ++ [(u, e)])));
      addBatch_loop rest k force results'
  end.

(** [addBatch(urls, type, { force })] *)
Definition addBatch (urls : list string) (k : Kind) (force : bool) : Prog BatchResult :=
  addBatch_loop urls k force (mkBatch 0 0 0 [] [] []).

(* ===================================================================== *)
(** ** QueueService: control operations *)

(** [pause(id)] *)
Definition pause (id : Id) : Prog bool :=
  a ← gets (queue_get id);
  match a with
  | None => Throw "Item não encontrado"
  | Some a =>
      it ← gets (deref a);
      if bool_decide (status it ≠ Downloading)
      then Throw "Apenas downloads em andamento podem ser pausados"
      else
        ok ← yt_pause id;
        when ok
          (modify (update_item a (set_status Paused));;
           updateStatus id Paused None None;;
           it ← gets (deref a);
           emit (EvStatusChange it));;
        mret ok
  end.

(** [resume(id)] *)
Definition resume (id : Id) : Prog bool :=
  a ← gets (queue_get id);
  match a with
  | None => Throw "Item não encontrado"
  | Some a =>
      it ← gets (deref a);
      if bool_decide (status it ≠ Paused)
      then Throw "Apenas downloads pausados podem ser continuados"
      else
        ok ← yt_resume id;
        when ok
          (modify (update_item a (set_status Downloading));;
           updateStatus id Downloading None None;;
           it ← gets (deref a);
           emit (EvStatusChange it));;
        mret ok
  end.

(** [cancel(id)] *)
Definition cancel (id : Id) : Prog bool :=
  a ← gets (queue_get id);
  match a with
  | None => Throw "Item não encontrado"
  | Some a =>
      it ← gets (deref a);
      when (bool_decide (status it = Downloading) || bool_decide (status it = Paused))
        (yt_cancel id;; decrement_active);;
      it ← gets (deref a);
      when (bool_decide (status it = Pending))
        (updateStatus id Cancelled None None);;
      modify (with_queue (map_delete id));;
      emit (EvRemoved id);;
      CallProcessNext (mret true)
  end.

(** [remove(id)] *)
Definition remove (id : Id) : Prog bool :=
  a ← gets (queue_get id);
  match a with
  | None => Throw "Item não encontrado"
  | Some a =>
      it ← gets (deref a);
      if bool_decide (status it = Downloading) || bool_decide (status it = Paused)
      then Throw "Cancele o download antes de remover"
      else
        modify (with_queue (map_delete id));;
        emit (EvRemoved id);;
        mret true
  end.

(** [clearCompleted()] *)
Definition clearCompleted : Prog unit :=
  modify (fun s =>
    with_queue (List.filter (fun e => negb (terminal (status (deref (snd e) s))))) s);;
  emit EvCleared.

(** [retry(id)]: the new item object takes the place of the id's entry. *)
Definition retry (id : Id) : Prog Addr :=
  historyItem ← await (WRead (GetById id));
  match historyItem with
  | None => Throw "Item não encontrado no histórico"
  | Some r =>
      if bool_decide (r_status r ≠ Error) && bool_decide (r_status r ≠ Cancelled)
      then Throw "Apenas downloads com erro ou cancelados podem ser re-tentados"
      else
        updateStatus id Pending None None;;
        t ← gets now;
        a ← Sync (alloc (mkItem id (r_url r) (r_title r) Pending 0%Q t (r_type r)
                                (r_playlist_id r) None None None)) Ret;
        modify (with_queue (map_set id a));;
        it ← gets (deref a);
        emit (EvAdded [it]);;
        CallProcessNext (mret a)
  end.

(* ===================================================================== *)
(** ** YoutubeService: the handlers attached to a worker process *)

Definition set_lastProgress (p : Q) (pr : Proc) : Proc :=
  mkProc (p_downloadId pr) p (p_closed pr).
Definition set_closed (pr : Proc) : Proc :=
  mkProc (p_downloadId pr) (p_lastProgress pr) true.

(** [ytProcess.stdout.on('data', ...)]: the progress part.  The detection
    of the output file from the text belongs to [on_close]'s [file]. *)
Definition on_stdout (pid : Pid) (pr : Proc) (output : string) : Prog unit :=
  let '(last', ev) :=
    Worker.stdout_progress parseFloat Qltb 100%Q (p_downloadId pr) (p_lastProgress pr) output in
  modify (with_procs (alter (set_lastProgress last') pid));;
  match ev with
  | Some d => on_progress d
  | None => Ret tt
  end.

(** [ytProcess.stderr.on('data', ...)] *)
Definition on_stderr (pr : Proc) (data : string) : Prog unit :=
  if negb (includes "WARNING" data)
  then Fork (handleError (p_downloadId pr) data) (Ret tt)
  else Ret tt.

(** [ytProcess.on('close', ...)] up to the settling of the promise: what
    the promise is settled with.  [code] is [None] when a signal ended the
    process; [file] is the output file the handler ends up with (parsed
    from the output, or found by scanning the download directory). *)
Definition on_close (pr : Proc) (code : option Z) (file : option string)
  : Prog (string + option string) :=
  modify (with_activeProcesses (delete (p_downloadId pr)));;
  if bool_decide (code = Some 0%Z)
  then Fork (handleComplete (p_downloadId pr) file) (mret (inr file))
  else Fork (handleError (p_downloadId pr) "Download falhou") (mret (inl "Download falhou")).

(** [ytProcess.on('error', ...)] *)
Definition on_process_error (pr : Proc) (message : string) : Prog (string + option string) :=
  modify (with_activeProcesses (delete (p_downloadId pr)));;
  Fork (handleError (p_downloadId pr) message) (mret (inl message)).

(* ===================================================================== *)
(** ** The event loop *)

(** A suspended continuation and what it waits for. *)
Inductive Task :=
| MkTask {R : Type} (w : Wait R) (k : R -> Prog unit).

(** How far a program got when control returned to the event loop. *)
Inductive Outcome (A : Type) : Type :=
| Done (a : A)
| Failed (e : string)
| Suspended {R : Type} (w : Wait R) (k : R -> Prog A).

Arguments Done {A}.
Arguments Failed {A}.
Arguments Suspended {A R}.

(** Which awaits are answered on the spot, and with what. *)
Definition Policy := forall R : Type, Wait R -> Store -> option (R * Store).

(** The event loop proper: every await gives control back. *)
Definition blocking : Policy := fun _ _ _ => None.

(** What the runtime itself answers: microtasks and database queries. *)
Definition answer : Policy := fun R w s =>
  match w in Wait R return option (R * Store) with
  | WTick => Some (tt, s)
  | WWrite q => Some (tt, db_write q s)
  | WRead q => Some (db_read q s, s)
  | _ => None
  end.

(** The worker's answers to [getInfo] and [getVideoDetails]. *)
Record Oracle := mkOracle {
  info_of : string -> string + list VideoInfo;
  details_of : string -> string + Details
}.

(** A call that nothing else interleaves with: the runtime and the JSON
    workers answer at once; only a download stays pending. *)
Definition uninterrupted (o : Oracle) : Policy := fun R w s =>
  match w in Wait R return option (R * Store) with
  | WInfo u => Some (info_of o u, s)
  | WDetails u => Some (details_of o u, s)
  | w' => answer _ w' s
  end.

(** A forked call leaves a task behind if it suspended; a rejection that
    nobody awaits is only reported. *)
Definition park (r : Outcome unit * Store * list Task) : Store * list Task :=
  match r with
  | (Done _, s, ts) => (s, ts)
  | (Failed e, s, ts) => (observe (Unhandled e) s, ts)
  | (Suspended w k, s, ts) => (s, ts ++ [MkTask w k])
  end.

(** The task an un-awaited [processNext()] leaves: its synchronous prefix
    only reads the settings cache, then the call awaits. *)
Definition head_task (p : Prog unit) (s : Store) : Store * Task :=
  match p with
  | Sync f k =>
      let '(b, s') := f s in
      match k b with
      | Await w k' => (s', MkTask w k')
      | _ => (s, MkTask WTick (fun _ => p))
      end
  | Await w k' => (s, MkTask w k')
  | _ => (s, MkTask WTick (fun _ => p))
  end.

(** Run a program until it returns, throws or suspends. *)
Fixpoint exec (pol : Policy) {A : Type} (p : Prog A) (s : Store) (ts : list Task)
  : Outcome A * Store * list Task :=
  match p with
  | Ret a => (Done a, s, ts)
  | Throw e => (Failed e, s, ts)
  | Sync f k => let '(b, s') := f s in exec pol (k b) s' ts
  | Await w k =>
      match pol _ w s with
      | Some (r, s') => exec pol (k r) s' ts
      | None => (Suspended w k, s, ts)
      end
  | Fork child k =>
      let '(s', ts') := park (exec blocking child s ts) in
      exec pol k s' ts'
  | CallProcessNext k =>
      let '(s', t) := head_task processNext s in
      exec pol k s' (ts ++ [t])
  end.

(** Calls of QueueService's methods (and of the settings update) from
    outside: the ones the controller's routes forward, and [remove],
    which the service exports but no route reaches. *)
Inductive ApiCall :=
| Add (u : string) (k : Kind) (force : bool)
| AddBatch (urls : list string) (k : Kind) (force : bool)
| PauseItem (id : Id)
| ResumeItem (id : Id)
| CancelItem (id : Id)
| RemoveItem (id : Id)
| RetryItem (id : Id)
| ClearCompleted
| UpdateSettings (n : nat).

(** The caller awaits the call and notes how it ended. *)
Definition respond {A} (p : Prog A) : Prog unit :=
  catch (p;; modify (observe (Replied (inr tt))))
        (fun e => modify (observe (Replied (inl e)))).

Definition api (c : ApiCall) : Prog unit :=
  match c with
  | Add u k force => respond (add u k force)
  | AddBatch urls k force => respond (addBatch urls k force)
  | PauseItem id => respond (pause id)
  | ResumeItem id => respond (resume id)
  | CancelItem id => respond (cancel id)
  | RemoveItem id => respond (remove id)
  | RetryItem id => respond (retry id)
  | ClearCompleted => respond clearCompleted
  | UpdateSettings n => respond (update_settings n)
  end.

(** What can happen next:
    - a request arrives;
    - the runtime resumes the [i]-th suspended task (its query or
      microtask has finished);
    - a JSON worker answers the oldest call that waits for its URL;
    - a download worker writes to stdout or stderr, closes, or fails to
      start;
    - a file appears on disk. *)
Inductive Action :=
| Call (c : ApiCall)
| Resume (i : nat)
| InfoArrives (u : string) (r : string + list VideoInfo)
| DetailsArrive (u : string) (r : string + Details)
| Stdout (pid : Pid) (output : string)
| Stderr (pid : Pid) (data : string)
| Close (pid : Pid) (code : option Z) (file : option string)
| ProcessError (pid : Pid) (message : string)
| FileWritten (path : string) (size : nat).

Record System := mkSystem { store : Store; tasks : list Task }.

Definition boot : System := mkSystem init [].

Definition launch (p : Prog unit) (sys : System) : System :=
  let '(s, ts) := park (exec blocking p (store sys) (tasks sys)) in mkSystem s ts.

(** Resume task [i] with the runtime's own answer. *)
Definition resume_task (i : nat) (sys : System) : System :=
  match tasks sys !! i with
  | Some (MkTask w k) =>
      match answer _ w (store sys) with
      | Some (r, s') => launch (k r) (mkSystem s' (delete i (tasks sys)))
      | None => sys
      end
  | None => sys
  end.

(** The first task a selector picks, resumed as the selector says, and
    the tasks that stay. *)
Fixpoint take_first (sel : Task -> option (Prog unit)) (ts : list Task)
  : option (Prog unit * list Task) :=
  match ts with
  | [] => None
  | t :: rest =>
      match sel t with
      | Some p => Some (p, rest)
      | None => '(p, rest') ← take_first sel rest; Some (p, t :: rest')
      end
  end.

Definition awaits_info (u : string) (r : string + list VideoInfo) (t : Task)
  : option (Prog unit) :=
  match t with
  | MkTask w k =>
      match w in Wait R return (R -> Prog unit) -> option (Prog unit) with
      | WInfo u' => fun k => if decide (u' = u) then Some (k r) else None
      | _ => fun _ => None
      end k
  end.

Definition awaits_details (u : string) (r : string + Details) (t : Task)
  : option (Prog unit) :=
  match t with
  | MkTask w k =>
      match w in Wait R return (R -> Prog unit) -> option (Prog unit) with
      | WDetails u' => fun k => if decide (u' = u) then Some (k r) else None
      | _ => fun _ => None
      end k
  end.

Definition awaits_download (pid : Pid) (r : string + option string) (t : Task)
  : option (Prog unit) :=
  match t with
  | MkTask w k =>
      match w in Wait R return (R -> Prog unit) -> option (Prog unit) with
      | WDownload pid' => fun k => if decide (pid' = pid) then Some (k r) else None
      | _ => fun _ => None
      end k
  end.

(** An outside answer reaches the first task that waits for it. *)
Definition deliver (sel : Task -> option (Prog unit)) (sys : System) : System :=
  match take_first sel (tasks sys) with
  | Some (p, ts') => launch p (mkSystem (store sys) ts')
  | None => sys
  end.

(** A handler of the process runs, then its promise settles. *)
Definition settle_with (pid : Pid) (h : Prog (string + option string)) (sys : System) : System :=
  match exec blocking h (store sys) (tasks sys) with
  | (Done r, s, ts) => deliver (awaits_download pid r) (mkSystem s ts)
  | (_, s, ts) => mkSystem s ts
  end.

(** A process that has not closed yet. *)
Definition live_proc (pid : Pid) (sys : System) : option Proc :=
  match procs (store sys) !! pid with
  | Some pr => if p_closed pr then None else Some pr
  | None => None
  end.

Definition tick (sys : System) : System :=
  mkSystem (with_now (S (now (store sys))) (store sys)) (tasks sys).

Definition step (a : Action) (sys : System) : System :=
  let sys := tick sys in
  match a with
  | Call c => launch (api c) sys
  | Resume i => resume_task i sys
  | InfoArrives u r => deliver (awaits_info u r) sys
  | DetailsArrive u r => deliver (awaits_details u r) sys
  | Stdout pid output =>
      match live_proc pid sys with
      | Some pr => launch (on_stdout pid pr output) sys
      | None => sys
      end
  | Stderr pid data =>
      match live_proc pid sys with
      | Some pr => launch (on_stderr pr data) sys
      | None => sys
      end
  | Close pid code file =>
      match live_proc pid sys with
      | Some pr =>
          settle_with pid (modify (with_procs (alter set_closed pid));; on_close pr code file) sys
      | None => sys
      end
  | ProcessError pid message =>
      match live_proc pid sys with
      | Some pr => settle_with pid (on_process_error pr message) sys
      | None => sys
      end
  | FileWritten path size =>
      mkSystem (with_files (map_set path size) (store sys)) (tasks sys)
  end.

Definition run (actions : list Action) (sys : System) : System :=
  fold_left (fun sys a => step a sys) actions sys.

(** The order in which the runtime resumes tasks when left alone:
    microtasks first, then queries in the order they were sent. *)
Definition is_tick (t : Task) : bool :=
  match t with
  | MkTask WTick _ => true
  | _ => false
  end.

Definition is_query (t : Task) : bool :=
  match t with
  | MkTask (WWrite _) _ | MkTask (WRead _) _ => true
  | _ => false
  end.

Fixpoint index_of (f : Task -> bool) (ts : list Task) : option nat :=
  match ts with
  | [] => None
  | t :: rest => if f t then Some 0 else S <$> index_of f rest
  end.

Definition next_ready (ts : list Task) : option nat :=
  match index_of is_tick ts with
  | Some i => Some i
  | None => index_of is_query ts
  end.

(** Let the runtime finish everything it can finish on its own. *)
Fixpoint quiesce (fuel : nat) (sys : System) : System :=
  match fuel with
  | O => sys
  | S n =>
      match next_ready (tasks sys) with
      | Some i => quiesce n (step (Resume i) sys)
      | None => sys
      end
  end.

(** An outside event, followed by everything the runtime does in reply. *)
Definition after (a : Action) (sys : System) : System := quiesce 64 (step a sys).

Definition play (actions : list Action) (sys : System) : System :=
  fold_left (fun sys a => after a sys) actions sys.

(* ===================================================================== *)
(** ** HistoryService: clearing the history *)

(** [historyService.clearAll()]: the rows that stay, and [rowCount]. *)
Definition clearAll (rows : list Row) : list Row * nat :=
  (List.filter (fun r => negb (terminal (r_status r))) rows,
   length (List.filter (fun r => terminal (r_status r)) rows)).

(* ===================================================================== *)
(** ** QueueService: statistics *)

(** The object [getStats()] returns. *)
Record Stats := mkStats {
  st_total : nat;
  st_pending : nat;
  st_downloading : nat;
  st_paused : nat;
  st_completed : nat;
  st_error : nat
}.

(** [getStats()] *)
Definition getStats (s : Store) : Stats :=
  mkStats (length (getQueue s))
          (count_status Pending s) (count_status Downloading s) (count_status Paused s)
          (count_status Completed s) (count_status Error s).

(* ===================================================================== *)
(** ** SettingsService: how values are stored *)

(** The values a setting takes ([null], a boolean, a number, a string) and
    what reading one back can give.  Numbers are whole numbers; [JNaN] is
    what [parseInt] makes of text without digits. *)
Inductive JsValue :=
| JNull
| JBool (b : bool)
| JNum (z : Z)
| JNaN
| JStr (s : string).

(** The [type] column. *)
Inductive ValueType := type_string | type_number | type_boolean.

(** [String(n)] for a whole number that is printed digit by digit (see
    [safe_integer]). *)
Definition string_of_Z (z : Z) : string := NilZero.string_of_int (Z.to_int z).

(** [getValueType(value)] *)
Definition getValueType (v : JsValue) : ValueType :=
  match v with
  | JNull => type_string
  | JBool _ => type_boolean
  | JNum _ | JNaN => type_number
  | JStr _ => type_string
  end.

(** [stringifyValue(value)] *)
Definition stringifyValue (v : JsValue) : string :=
  match v with
  | JNull => "null"
  | JBool true => "true"
  | JBool false => "false"
  | JNum z => string_of_Z z
  | JNaN => "NaN"
  | JStr s => s
  end.

(** White space that [parseInt] skips (the ASCII part of it: space, tab,
    line feed, vertical tab, form feed, carriage return). *)
Definition is_space (c : ascii) : bool :=
  let n := nat_of_ascii c in
  ((n =? 32) || ((9 <=? n) && (n <=? 13)))%nat.

Fixpoint skip_spaces (s : string) : string :=
  match s with
  | String c rest => if is_space c then skip_spaces rest else s
  | EmptyString => EmptyString
  end.

(** The digits of a run, read in base ten. *)
Definition digits_to_Z (d : string) : option Z :=
  Z.of_uint <$> NilEmpty.uint_of_string d.

(** [parseInt(text, 10)]: leading white space, an optional sign, then the
    longest run of digits; [NaN] when there is none. *)
Definition parseInt (text : string) : JsValue :=
  let t := skip_spaces text in
  let '(negative, body) :=
    match t with
    | String "-" rest => (true, rest)
    | String "+" rest => (false, rest)
    | _ => (false, t)
    end in
  match fst (span_digits body) with
  | EmptyString => JNaN
  | d =>
      match digits_to_Z d with
      | Some z => JNum (if negative then - z else z)%Z
      | None => JNaN
      end
  end.

(** [parseValue(value, type)], for a [value] column that is not NULL. *)
Definition parseValue (value : string) (type : ValueType) : JsValue :=
  if decide (value = "null") then JNull
  else match type with
       | type_number => parseInt value
       | type_boolean => JBool (bool_decide (value = "true"))
       | type_string => JStr value
       end.

(* ===================================================================== *)
(** ** YoutubeService: durations *)



(* ===================================================================== *)
(** ** Vocabulary of the properties *)

(** What the duplicate checks of [add] find for a video, read off the
    registry and the table directly. *)
Definition duplicate_of (v : VideoInfo) (s : Store) : option Skipped :=
  let videoUrl := video_url v in
  match existsInMemoryQueue videoUrl s with
  | Some it =>
      Some (mkSkipped videoUrl (or_default (v_title v) (title it)) in_queue (item_id it) None)
  | None =>
      match existsInQueue videoUrl (downloads s) with
      | Some r =>
          Some (mkSkipped videoUrl (or_default (v_title v) (r_title r)) in_queue (r_id r) None)
      | None =>
          match wasDownloadedSuccessfully videoUrl (downloads s) with
          | Some r =>
              Some (mkSkipped videoUrl (or_default (v_title v) (r_title r))
                              already_downloaded (r_id r) (r_finished_at r))
          | None => None
          end
      end
  end.

(** A job for [u] that is pending, downloading or paused, in the registry
    or in the table, and its id. *)
Definition in_flight_job (u : string) (s : Store) (id : Id) : Prop :=
  (exists it, In it (getQueue s) /\ item_id it = id /\ url it = u
              /\ in_flight (status it) = true)
  \/ (exists r, In r (downloads s) /\ r_id r = id /\ r_url r = u
               /\ in_flight (r_status r) = true).

(** A completed record for [u] in the table, and its id. *)
Definition completed_record (u : string) (s : Store) (id : Id) : Prop :=
  exists r, In r (downloads s) /\ r_id r = id /\ r_url r = u /\ r_status r = Completed.

(** The store after a call that created no job, wrote nothing and emitted
    nothing. *)
Definition nothing_created (s s' : Store) : Prop :=
  heap s' = heap s /\ queue s' = queue s /\ downloads s' = downloads s
  /\ trace s' = trace s /\ activeDownloads s' = activeDownloads s.

(** How one [add] of a batch ended: it threw, or it returned its items
    and skips. *)
Definition AddOutcome : Type := string + (list Addr * list Skipped).

(** The [add] calls of a batch, one URL after the other, each starting
    where the previous one stopped. *)
Fixpoint batch_outcomes (o : Oracle) (urls : list string) (k : Kind) (force : bool)
    (s : Store) (ts : list Task) : list (string * AddOutcome) * Store * list Task :=
  match urls with
  | [] => ([], s, ts)
  | u :: rest =>
      match exec (uninterrupted o) (add u k force) s ts with
      | (Done r, s', ts') =>
          let '(outs, s'', ts'') := batch_outcomes o rest k force s' ts' in
          ((u, inr r) :: outs, s'', ts'')
      | (Failed e, s', ts') =>
          let '(outs, s'', ts'') := batch_outcomes o rest k force s' ts' in
          ((u, inl e) :: outs, s'', ts'')
      | (Suspended _ _, s', ts') => ([], s', ts')
      end
  end.

Definition created_by (out : string * AddOutcome) : list Addr :=
  match snd out with
  | inr r => fst r
  | inl _ => []
  end.

Definition skipped_by (out : string * AddOutcome) : list Skipped :=
  match snd out with
  | inr r => snd r
  | inl _ => []
  end.

Definition error_of (out : string * AddOutcome) : list (string * string) :=
  match snd out with
  | inr _ => []
  | inl e => [(fst out, e)]
  end.

(** The aggregate the batch is said to return: the numbers of created
    items, of URLs whose [add] threw and of skipped items, with the items,
    the skips and the [{url, error}] pairs in order. *)
Definition tally (outs : list (string * AddOutcome)) : BatchResult :=
  mkBatch (length (concat (map created_by outs)))
          (length (concat (map error_of outs)))
          (length (concat (map skipped_by outs)))
          (concat (map created_by outs))
          (concat (map skipped_by outs))
          (concat (map error_of outs)).

(** The same on top of what was already counted. *)
Definition tally_onto (acc : BatchResult) (outs : list (string * AddOutcome)) : BatchResult :=
  mkBatch (success acc + success (tally outs))
          (failed acc + failed (tally outs))
          (skipped acc + skipped (tally outs))
          (b_items acc ++ b_items (tally outs))
          (b_skippedItems acc ++ b_skippedItems (tally outs))
          (errors acc ++ errors (tally outs)).

(** A call has come back: it returned or threw. *)
Definition finished {A} (out : Outcome A) : Prop :=
  match out with
  | Suspended _ _ => False
  | _ => True
  end.

(** Does the event tell subscribers that job [id] is in status [st]? *)
Definition announces (id : Id) (st : Status) (e : Event) : bool :=
  match e with
  | EvStatusChange it | EvComplete it _ | EvError it =>
      bool_decide (item_id it = id) && bool_decide (status it = st)
  | _ => false
  end.

Definition persists (id : Id) (st : Status) (o : Obs) : bool :=
  match o with
  | Persisted (UpdateStatus id' st' _ _) => bool_decide (id' = id) && bool_decide (st' = st)
  | _ => false
  end.

(** Every event that announces a status of a job comes after a completed
    write of that status for that job.  [seen] is the trace so far. *)
Fixpoint mirrored_first (seen rest : list Obs) : bool :=
  match rest with
  | [] => true
  | o :: rest' =>
      match o with
      | Emitted (EvStatusChange it) | Emitted (EvComplete it _) | Emitted (EvError it) =>
          existsb (persists (item_id it) (status it)) seen
      | _ => true
      end && mirrored_first (seen ++ [o]) rest'
  end.

(** After job [id] has been announced completed, failed or cancelled, no
    'progress' and no 'statusChange' follows for it.  [over] says whether
    the terminal status has been announced; an 'added' event for the id (a
    retry) starts the job afresh. *)
Fixpoint quiet_after_terminal (id : Id) (over : bool) (tr : list Obs) : bool :=
  match tr with
  | [] => true
  | Emitted (EvAdded its) :: rest =>
      quiet_after_terminal id
        (if existsb (fun it => bool_decide (item_id it = id)) its then false else over) rest
  | Emitted (EvComplete it _) :: rest | Emitted (EvError it) :: rest =>
      quiet_after_terminal id (if decide (item_id it = id) then true else over) rest
  | Emitted (EvStatusChange it) :: rest =>
      if decide (item_id it = id)
      then negb over && quiet_after_terminal id (terminal (status it)) rest
      else quiet_after_terminal id over rest
  | Emitted (EvProgress it) :: rest =>
      if decide (item_id it = id)
      then negb over && quiet_after_terminal id over rest
      else quiet_after_terminal id over rest
  | _ :: rest => quiet_after_terminal id over rest
  end.

(** The position of the first observation that satisfies [f]. *)
Fixpoint first_index (f : Obs -> bool) (tr : list Obs) : option nat :=
  match tr with
  | [] => None
  | o :: rest => if f o then Some 0 else S <$> first_index f rest
  end.

(** The signals sent to process [pid]. *)
Definition signals_to (pid : Pid) (tr : list Obs) : list Signal :=
  omap (fun o => match o with
                 | Signalled pid' sig => if decide (pid' = pid) then Some sig else None
                 | _ => None
                 end) tr.

Definition tells (id : Id) (st : Status) (o : Obs) : bool :=
  match o with
  | Emitted e => announces id st e
  | _ => false
  end.

Definition is_removed (id : Id) (o : Obs) : bool :=
  match o with
  | Emitted (EvRemoved id') => bool_decide (id' = id)
  | _ => false
  end.

(** The statuses subscribers are told for job [id], in order. *)
Definition announced (id : Id) (tr : list Obs) : list Status :=
  omap (fun o => match o with
                 | Emitted (EvStatusChange it) | Emitted (EvProgress it)
                 | Emitted (EvComplete it _) | Emitted (EvError it) =>
                     if decide (item_id it = id) then Some (status it) else None
                 | _ => None
                 end) tr.

(** The registry as a client lists it: id, status and submission time. *)
Definition listing (sys : System) : list (Id * Status * nat) :=
  map (fun it => (item_id it, status it, createdAt it)) (getQueue (store sys)).

(** The pending job with the oldest submission time; among equals, the
    one listed first. *)
Fixpoint oldest (best : option Item) (its : list Item) : option Item :=
  match its with
  | [] => best
  | it :: rest =>
      if bool_decide (status it = Pending)
      then match best with
           | Some b => oldest (if (createdAt it <? createdAt b)%nat then Some it else Some b) rest
           | None => oldest (Some it) rest
           end
      else oldest best rest
  end.

Definition oldest_pending (s : Store) : option Id := item_id <$> oldest None (getQueue s).

(** Every key of the registry was drawn from the identifier supply and
    refers to an allocated object. *)
Definition registry_ok (s : Store) : Prop :=
  Forall (fun e => fst e < nextId s /\ snd e < length (heap s)) (queue s).

(** What the duplicate checks find for a URL: the skip reason and the id
    of the job or record found. *)
Definition prior (u : string) (s : Store) : option (Reason * Id) :=
  match existsInMemoryQueue u s with
  | Some it => Some (in_queue, item_id it)
  | None =>
      match existsInQueue u (downloads s) with
      | Some r => Some (in_queue, r_id r)
      | None =>
          match wasDownloadedSuccessfully u (downloads s) with
          | Some r => Some (already_downloaded, r_id r)
          | None => None
          end
      end
  end.

(** The item [add] builds for a video that is not a duplicate, and the
    store once it is listed and recorded. *)
Definition new_item (k : Kind) (pl : option Id) (v : VideoInfo) (s : Store) : Item :=
  mkItem (nextId s) (video_url v) (or_default (v_title v) "Carregando...")
         Pending 0%Q (now s) k pl (or_else (v_uploader v) (v_channel v)) None None.

Definition created (k : Kind) (pl : option Id) (v : VideoInfo) (s : Store) : Store :=
  db_write (HistoryAdd (nextId s) (video_url v) (title (new_item k pl v s)) k pl
                       (or_else (v_uploader v) (v_channel v)))
    (with_queue (map_set (nextId s) (length (heap s)))
       (with_heap (fun h => h ++ [new_item k pl v s])
          (with_nextId (S (nextId s)) s))).

(** A string of decimal digits only. *)
Fixpoint digits_only (s : string) : bool :=
  match s with
  | EmptyString => true
  | String c rest => is_digit c && digits_only rest
  end.


(** The whole numbers a JavaScript number holds exactly, which [String]
    prints digit by digit ([Number.MAX_SAFE_INTEGER] and below). *)
Definition safe_integer (z : Z) : Prop := (Z.abs z <= 2 ^ 53 - 1)%Z.

(** The setting values that survive being stored: every one except the
    text ["null"], which is how [null] itself is stored. *)
Definition storable (v : JsValue) : Prop :=
  match v with
  | JNum z => safe_integer z
  | JStr s => s <> "null"
  | _ => True
  end.

(* ===================================================================== *)
(** ** Scenarios *)

(** What the worker prints for a single video: its URL, a title and an
    uploader, so that no details need to be fetched. *)
Definition sample_video (u : string) : VideoInfo :=
  mkVideoInfo (Some u) None "dQw4w9WgXcQ" (Some "Song") (Some "Channel") None.

Definition sample_oracle : Oracle :=
  mkOracle (fun u => inr [sample_video u]) (fun u => inl "no details").

(** A client submits one video URL and the worker resolves it. *)
Definition submit (u : string) : list Action :=
  [Call (Add u video false); InfoArrives u (inr [sample_video u])].

(** The limit is 1; [a] is downloading (job 0, process 0), [b] and [c]
    wait (jobs 1 and 2). *)
Definition one_running_two_waiting : System :=
  play (Call (UpdateSettings 1) :: submit "a" ++ submit "b" ++ submit "c") boot.

(** ... then the client cancels the running job. *)
Definition running_job_cancelled : System :=
  play [Call (CancelItem 0)] one_running_two_waiting.

(** One job, downloading, under the default limit. *)
Definition one_running : System := play (submit "a") boot.

(** ... paused by the client. *)
Definition one_paused : System := play [Call (PauseItem 0)] one_running.

(** ... and the cancel request has just run, up to its return. *)
Definition paused_cancel_returned : System := step (Call (CancelItem 0)) one_paused.

(** ... and the runtime has finished what the request left behind. *)
Definition paused_cancel_settled : System := quiesce 64 paused_cancel_returned.

(** ... and the killed worker has closed. *)
Definition paused_cancel_closed : System := play [Close 0 None None] paused_cancel_settled.

(** The running job's cancel request has just run, up to its return. *)
Definition running_cancel_returned : System := step (Call (CancelItem 0)) one_running.

(** The worker of a running job writes a line without "WARNING" to stderr
    and goes on downloading. *)
Definition stderr_then_progress : System :=
  play [Stderr 0 "Deprecated Feature: Support for Python version 3.8 has been deprecated";
        Stdout 0 "[download]  50.0% of 3.50MiB at 1.20MiB/s ETA 00:01"] one_running.

(** Limit 1.  [a], [b], [c] are submitted; [a]'s worker exits with code 1;
    [d] is submitted; the client retries [a], which is still listed. *)
Definition retried_while_listed : System :=
  play (Call (UpdateSettings 1) :: submit "a" ++ submit "b" ++ submit "c"
        ++ [Close 0 (Some 1%Z) None] ++ submit "d" ++ [Call (RetryItem 0)]) boot.

(** ... then [b]'s worker exits with code 0, which frees a slot. *)
Definition slot_freed_after_retry : System :=
  play [Close 1 (Some 0%Z) (Some "/downloads/Song.mp3")] retried_while_listed.

(** A running job whose worker has reported 100% and is converting. *)
Definition one_converting : System :=
  play [Stdout 0 "[download] 100% of 3.50MiB in 00:02"] one_running.

(** ... on which [remove] is called. *)
Definition converting_removed : System := play [Call (RemoveItem 0)] one_converting.

(** ... or which the client cancels instead. *)
Definition converting_cancelled : System := play [Call (CancelItem 0)] one_converting.

(** Limit 1: [a] is downloading (job 0), [b] waits (job 1). *)
Definition one_running_one_waiting : System :=
  play (Call (UpdateSettings 1) :: submit "a" ++ submit "b") boot.

(** ... then [a]'s worker exits with code 0. *)
Definition first_completed : System :=
  play [Close 0 (Some 0%Z) (Some "/downloads/Song.mp3")] one_running_one_waiting.

(** ... while both are listed, a playlist of three members is submitted,
    the second of which is [b]. *)
Definition playlist_with_duplicate : System :=
  play [Call (Add "list" playlist false);
        InfoArrives "list" (inr [sample_video "x"; sample_video "b"; sample_video "y"])]
       one_running_one_waiting.

(** A submitted job that is listed, and whose record is still on its way
    to the table: one pending item, nothing running. *)
Definition one_listed : System := run (submit "a" ++ [Resume 0; Resume 0]) boot.

(** ... admitted by [processNext]: the item is 'downloading', its first
    write is on its way and no worker has been spawned yet. *)
Definition one_starting : System := run [Resume 0; Resume 0] one_listed.

(** A running job whose worker exits with code 1. *)
Definition one_failed : System := play [Close 0 (Some 1%Z) None] one_running.

(** ... and the record the table then holds for it. *)
Definition record_of_failed : Row :=
  mkRow 0 "a" "Song" Error 5 (Some 12) None (Some "Download falhou") video None 0%Q
        (Some "Channel") None.

(** The record of the completed job of [first_completed]. *)
Definition record_of_completed : Row :=
  mkRow 0 "a" "Song" Completed 8 (Some 19) (Some "/downloads/Song.mp3") None video None 0%Q
        (Some "Channel") None.

(** A worker that cannot resolve anything. *)
Definition failing_oracle : Oracle :=
  mkOracle (fun _ => inl "ERROR: Unsupported URL") (fun _ => inl "no details").

(** A worker that resolves every URL to the same three videos. *)
Definition playlist_oracle : Oracle :=
  mkOracle (fun _ => inr [sample_video "x"; sample_video "b"; sample_video "y"])
           (fun _ => inl "no details").

(** Unfold the monad notation down to [bind] and [Ret]. *)
Ltac monad := unfold mbind, mret, Prog_bind, Prog_ret.

(** Decide the status tests of the control operations. *)
Ltac decide_status :=
  repeat first [ rewrite bool_decide_eq_true_2 by reflexivity
               | rewrite bool_decide_eq_false_2 by discriminate
               | rewrite bool_decide_eq_true_2 by discriminate
               | rewrite bool_decide_eq_false_2
                   by (let H := fresh in intros H; apply H; reflexivity) ].

(** Name the task that an un-awaited [processNext()] leaves; [lem] says
    that the call leaves the state alone. *)
Ltac schedule_next_with lem :=
  match goal with
  | |- context [head_task processNext ?s0] =>
      let t := fresh "t" in
      let Ht := fresh "Ht" in
      destruct (lem s0) as [t Ht]; rewrite Ht
  end.

(* ===================================================================== *)
(** * Properties *)

(** ** How [exec] goes through [bind] and [catch] *)

Lemma exec_bind {A B} (p : Prog A) (f : A -> Prog B) : forall pol s ts,
  exec pol (bind p f) s ts =
  match exec pol p s ts with
  | (Done a, s', ts') => exec pol (f a) s' ts'
  | (Failed e, s', ts') => (Failed e, s', ts')
  | (Suspended w k, s', ts') => (Suspended w (fun r => bind (k r) f), s', ts')
  end.
Proof.
  revert B f.
  induction p as [A a|A e|A B0 g k IH|A R w k IH|A child IHc k IH|A k IH];
    intros B f pol s ts; cbn [exec bind].
  - reflexivity.
  - reflexivity.
  - destruct (g s) as [b s']. apply IH.
  - destruct (pol R w s) as [[r s']|]; [apply IH|reflexivity].
  - destruct (park (exec blocking child s ts)) as [s' ts']. apply IH.
  - destruct (head_task processNext s) as [s' t]. apply IH.
Qed.

Lemma exec_catch {A} (p : Prog A) (h : string -> Prog A) : forall pol s ts,
  exec pol (catch p h) s ts =
  match exec pol p s ts with
  | (Done a, s', ts') => (Done a, s', ts')
  | (Failed e, s', ts') => exec pol (h e) s' ts'
  | (Suspended w k, s', ts') => (Suspended w (fun r => catch (k r) h), s', ts')
  end.
Proof.
  revert h.
  induction p as [A a|A e|A B0 g k IH|A R w k IH|A child IHc k IH|A k IH];
    intros h pol s ts; cbn [exec catch].
  - reflexivity.
  - reflexivity.
  - destruct (g s) as [b s']. apply IH.
  - destruct (pol R w s) as [[r s']|]; [apply IH|reflexivity].
  - destruct (park (exec blocking child s ts)) as [s' ts']. apply IH.
  - destruct (head_task processNext s) as [s' t]. apply IH.
Qed.

(** ** The progress guard of the stdout handler *)

Lemma Qltb_lt (x y : Q) : Qltb x y = true <-> (x < y)%Q.
Proof.
  unfold Qltb. rewrite negb_true_iff. split.
  - intros H. apply Qnot_le_lt. intros Hle.
    apply Qle_bool_iff in Hle. congruence.
  - intros H. destruct (Qle_bool y x) eqn:E; [|reflexivity].
    apply Qle_bool_iff in E. exfalso. exact (Qlt_not_le _ _ H E).
Qed.

Lemma Qltb_trans (a b c : Q) : Qltb a b = true -> Qltb b c = true -> Qltb a c = true.
Proof. rewrite !Qltb_lt. apply Qlt_trans. Qed.

Section ProgressGuardFacts.
Variable F : Type.
Variable parse : string -> F.
Variable lt : F -> F -> bool.
Variable hundred : F.
Hypothesis lt_trans : forall a b c, lt a b = true -> lt b c = true -> lt a c = true.

Lemma stdout_stream_above {Id} (downloadId : Id) chunks : forall lastProgress,
  Forall (fun y => lt lastProgress y = true)
         (map Worker.pe_progress
              (Worker.stdout_stream parse lt hundred downloadId lastProgress chunks)).
Proof.
  induction chunks as [|c rest IH]; intros lastProgress; simpl; [constructor|].
  unfold Worker.stdout_progress.
  destruct (match_percent c) as [g|]; [|apply IH].
  destruct (lt lastProgress (parse g)) eqn:Hlt; [|apply IH].
  simpl. constructor; [exact Hlt|].
  eapply Forall_impl; [apply IH|].
  intros y Hy. simpl in Hy. eapply lt_trans; eassumption.
Qed.

(** C5. Along the stdout stream of one worker, the progress values of the
    emitted 'progress' events are strictly increasing: each emitted value
    is above every value emitted before it, and all of them are above the
    value [lastProgress] started from.  This holds for any number type
    whose [<] is transitive, so for the runtime's doubles. *)
Theorem progress_events_strictly_increasing {Id} (downloadId : Id) chunks lastProgress :
  let emitted :=
    map Worker.pe_progress
        (Worker.stdout_stream parse lt hundred downloadId lastProgress chunks) in
  increasing lt emitted /\ Forall (fun y => lt lastProgress y = true) emitted.
Proof.
  cbv zeta. split; [|apply stdout_stream_above].
  revert lastProgress.
  induction chunks as [|c rest IH]; intros lastProgress; simpl; [exact I|].
  unfold Worker.stdout_progress.
  destruct (match_percent c) as [g|]; [|apply IH].
  destruct (lt lastProgress (parse g)) eqn:Hlt; [|apply IH].
  simpl. split; [apply stdout_stream_above | apply IH].
Qed.
End ProgressGuardFacts.

Lemma progress_events_strictly_increasing_witness :
  let emitted :=
    map Worker.pe_progress
        (Worker.stdout_stream parseFloat Qltb 100%Q 7
           0%Q ["[download]  10.0% of 3.50MiB"; "[download]   5.0% of 3.50MiB";
                "[download]  45.3% of 3.50MiB"; "[download] 100% of 3.50MiB"]) in
  increasing Qltb emitted /\ Forall (fun y => Qltb 0%Q y = true) emitted.
Proof.
  apply (progress_events_strictly_increasing Q parseFloat Qltb 100%Q Qltb_trans).
Defined.

(** The 'progress' listener copies the event's value into the item and
    sends that item out. *)
Lemma on_progress_stores pol s ts a (d : Worker.ProgressEvent Q Id) :
  queue_get (Worker.pe_id d) s = Some a ->
  exists s' ts',
    exec pol (on_progress d) s ts = (Done tt, s', ts')
    /\ heap s' = alter (fun it =>
         set_status (match Worker.pe_status d with
                     | Worker.sub_downloading => Downloading
                     | Worker.sub_converting => Converting
                     end) (set_progress (Worker.pe_progress d) it)) a (heap s)
    /\ trace s' = trace s ++ [Emitted (EvProgress (deref a s'))].
Proof.
  intros Hq. unfold on_progress. cbn. rewrite Hq. cbn.
  eexists _, _. split; [reflexivity|]. split; reflexivity.
Qed.

(** ** Submission: duplicates *)

Lemma exec_check_duplicate o v s ts :
  exec (uninterrupted o) (check_duplicate v) s ts = (Done (duplicate_of v s), s, ts).
Proof.
  unfold check_duplicate, duplicate_of. cbn.
  destruct (existsInMemoryQueue (video_url v) s) as [it|]; cbn; [reflexivity|].
  destruct (existsInQueue (video_url v) (downloads s)) as [r|]; cbn; [reflexivity|].
  destruct (wasDownloadedSuccessfully (video_url v) (downloads s)) as [r|]; reflexivity.
Qed.

Lemma exec_add_one_skip o k pl v s ts sk :
  duplicate_of v s = Some sk ->
  exec (uninterrupted o) (add_one k false pl v) s ts = (Done (inl sk), s, ts).
Proof.
  intros H. unfold add_one. monad.
  rewrite exec_bind, exec_check_duplicate, H. reflexivity.
Qed.

Lemma exec_add_one_total o k force pl v s ts :
  exists r s', exec (uninterrupted o) (add_one k force pl v) s ts = (Done r, s', ts).
Proof.
  unfold add_one. monad. rewrite exec_bind.
  destruct force.
  - cbn. eauto.
  - rewrite exec_check_duplicate. destruct (duplicate_of v s); cbn; eauto.
Qed.

Lemma exec_add_loop_total o k force pl vs : forall items sks s ts,
  exists r s', exec (uninterrupted o) (add_loop k force pl vs items sks) s ts = (Done r, s', ts).
Proof.
  induction vs as [|v rest IH]; intros items sks s ts; cbn [add_loop].
  - cbn. eauto.
  - monad. rewrite exec_bind.
    destruct (exec_add_one_total o k force pl v s ts) as (r & s' & ->).
    destruct r; apply IH.
Qed.

(** Run without interleaving, [add] always comes back. *)
Lemma exec_add_finished o u k force s ts :
  finished (exec (uninterrupted o) (add u k force) s ts).1.1.
Proof.
  unfold add. monad. rewrite exec_catch, exec_bind.
  unfold getInfo, settled. cbn [exec uninterrupted].
  destruct (info_of o u) as [e|vs]; cbn [exec]; [exact I|].
  rewrite exec_bind.
  assert (Hpl : exists pl s1, exec (uninterrupted o)
            (match k with
             | video => Ret None
             | playlist => bind uuidv4 (fun id => Ret (Some id))
             end) s ts = (Done pl, s1, ts)).
  { destruct k; cbn; eauto. }
  destruct Hpl as (pl & s1 & ->).
  rewrite exec_bind.
  destruct (exec_add_loop_total o k force pl vs [] [] s1 ts) as (r & s2 & ->).
  rewrite exec_bind.
  destruct r as [[|a items] sks]; cbn [fst].
  - cbn. exact I.
  - cbn [exec emit modify gets bind].
    destruct (head_task processNext _) as [s3 t]. cbn. exact I.
Qed.

Lemma existsInMemoryQueue_Some u s it :
  existsInMemoryQueue u s = Some it ->
  In it (getQueue s) /\ url it = u /\ in_flight (status it) = true.
Proof.
  unfold existsInMemoryQueue. intros H. apply List.find_some in H as [Hin Hb].
  apply andb_prop in Hb as [Hu Hf]. apply bool_decide_eq_true_1 in Hu. auto.
Qed.

Lemma existsInMemoryQueue_None u s it :
  existsInMemoryQueue u s = None ->
  In it (getQueue s) -> url it = u -> in_flight (status it) = false.
Proof.
  unfold existsInMemoryQueue. intros H Hin Hu.
  pose proof (List.find_none _ _ H it Hin) as Hb. cbn in Hb.
  rewrite bool_decide_eq_true_2 in Hb by exact Hu. exact Hb.
Qed.

Lemma pick_last_In after rows : forall best r,
  pick_last after best rows = Some r -> best = Some r \/ In r rows.
Proof.
  induction rows as [|x rest IH]; intros best r H; cbn in H.
  - auto.
  - destruct best as [b|].
    + apply IH in H as [H|H]; [|right; right; exact H].
      destruct (after x b); [right; left; congruence | left; exact H].
    + apply IH in H as [H|H]; [right; left; congruence | right; right; exact H].
Qed.

Lemma pick_last_None after rows : forall best,
  pick_last after best rows = None -> best = None /\ rows = [].
Proof.
  induction rows as [|x rest IH]; intros best H; cbn in H.
  - auto.
  - destruct best as [b|]; apply IH in H as [H _]; [destruct (after x b)|]; discriminate.
Qed.

Lemma existsInQueue_Some u rows r :
  existsInQueue u rows = Some r ->
  In r rows /\ r_url r = u /\ in_flight (r_status r) = true.
Proof.
  unfold existsInQueue. intros H. apply pick_last_In in H as [H|H]; [discriminate|].
  apply List.filter_In in H as [Hin Hb]. apply andb_prop in Hb as [Hu Hf].
  apply bool_decide_eq_true_1 in Hu. auto.
Qed.

Lemma existsInQueue_None u rows r :
  existsInQueue u rows = None ->
  In r rows -> r_url r = u -> in_flight (r_status r) = false.
Proof.
  unfold existsInQueue. intros H Hin Hu. apply pick_last_None in H as [_ H].
  destruct (in_flight (r_status r)) eqn:Hf; [|reflexivity]. exfalso.
  assert (Hr : In r (List.filter
            (fun r => bool_decide (r_url r = u) && in_flight (r_status r)) rows)).
  { apply List.filter_In. split; [exact Hin|].
    rewrite bool_decide_eq_true_2 by exact Hu. exact Hf. }
  rewrite H in Hr. exact Hr.
Qed.

Lemma wasDownloadedSuccessfully_Some u rows r :
  wasDownloadedSuccessfully u rows = Some r ->
  In r rows /\ r_url r = u /\ r_status r = Completed.
Proof.
  unfold wasDownloadedSuccessfully. intros H.
  apply pick_last_In in H as [H|H]; [discriminate|].
  apply List.filter_In in H as [Hin Hb]. apply andb_prop in Hb as [Hu Hf].
  apply bool_decide_eq_true_1 in Hu. apply bool_decide_eq_true_1 in Hf. auto.
Qed.

Lemma wasDownloadedSuccessfully_None u rows r :
  wasDownloadedSuccessfully u rows = None ->
  In r rows -> r_url r = u -> r_status r <> Completed.
Proof.
  unfold wasDownloadedSuccessfully. intros H Hin Hu Hst.
  apply pick_last_None in H as [_ H].
  assert (Hr : In r (List.filter
            (fun r => bool_decide (r_url r = u) && bool_decide (r_status r = Completed)) rows)).
  { apply List.filter_In. split; [exact Hin|].
    rewrite !bool_decide_eq_true_2 by assumption. reflexivity. }
  rewrite H in Hr. exact Hr.
Qed.

Lemma exec_add_single_skip o u k v s ts sk :
  info_of o u = inr [v] ->
  duplicate_of v s = Some sk ->
  exists s', exec (uninterrupted o) (add u k false) s ts = (Done ([], [sk]), s', ts)
             /\ nothing_created s s'.
Proof.
  intros Hinfo Hdup. unfold add. monad. rewrite exec_catch, exec_bind.
  unfold getInfo, settled. cbn [exec uninterrupted]. rewrite Hinfo. cbn [exec].
  rewrite exec_bind.
  destruct k.
  - cbn [exec]. rewrite exec_bind. cbn [add_loop]. monad. rewrite exec_bind.
    rewrite (exec_add_one_skip o video None v s ts sk Hdup).
    cbn. eexists. split; [reflexivity|]. repeat split.
  - cbn [exec uuidv4 bind]. rewrite exec_bind. cbn [add_loop]. monad. rewrite exec_bind.
    erewrite exec_add_one_skip by exact Hdup.
    cbn. eexists. split; [reflexivity|]. repeat split.
Qed.

(** C3. [add(url)] without [force], when the worker resolves the URL to
    one video and nothing interleaves with the call:
    - if that video's URL has a pending, downloading or paused job in the
      registry or in the table, the call returns no item and exactly one
      skip, with reason [in_queue] and the id of such a job, and it creates
      no job, writes nothing and emits nothing;
    - if it has none, but the table holds a completed record for the URL,
      the call returns no item and exactly one skip, with reason
      [already_downloaded] and the id of such a record, again without
      creating, writing or emitting anything. *)
Theorem add_skips_duplicates o s ts u k v :
  info_of o u = inr [v] ->
  ((exists id, in_flight_job (video_url v) s id) ->
     exists sk s',
       exec (uninterrupted o) (add u k false) s ts = (Done ([], [sk]), s', ts)
       /\ nothing_created s s'
       /\ sk_url sk = video_url v /\ reason sk = in_queue
       /\ in_flight_job (video_url v) s (existingId sk))
  /\ ((forall id, ~ in_flight_job (video_url v) s id) ->
      (exists id, completed_record (video_url v) s id) ->
     exists sk s',
       exec (uninterrupted o) (add u k false) s ts = (Done ([], [sk]), s', ts)
       /\ nothing_created s s'
       /\ sk_url sk = video_url v /\ reason sk = already_downloaded
       /\ completed_record (video_url v) s (existingId sk)).
Proof.
  intros Hinfo. split.
  - intros [id Hjob].
    destruct (existsInMemoryQueue (video_url v) s) as [it|] eqn:Hmem.
    + destruct (exec_add_single_skip o u k v s ts _ Hinfo
                  ltac:(unfold duplicate_of; rewrite Hmem; reflexivity)) as (s' & He & Hn).
      eexists _, s'. split; [exact He|]. split; [exact Hn|]. cbn.
      apply existsInMemoryQueue_Some in Hmem as (Hin & Hu & Hf).
      repeat split. left. exists it. auto.
    + destruct (existsInQueue (video_url v) (downloads s)) as [r|] eqn:Hdb.
      * destruct (exec_add_single_skip o u k v s ts _ Hinfo
                    ltac:(unfold duplicate_of; rewrite Hmem, Hdb; reflexivity))
          as (s' & He & Hn).
        eexists _, s'. split; [exact He|]. split; [exact Hn|]. cbn.
        apply existsInQueue_Some in Hdb as (Hin & Hu & Hf).
        repeat split. right. exists r. auto.
      * exfalso. destruct Hjob as [(it & Hin & _ & Hu & Hf)|(r & Hin & _ & Hu & Hf)].
        -- rewrite (existsInMemoryQueue_None _ _ _ Hmem Hin Hu) in Hf. discriminate.
        -- rewrite (existsInQueue_None _ _ _ Hdb Hin Hu) in Hf. discriminate.
  - intros Hnone [id (r0 & Hin0 & _ & Hu0 & Hst0)].
    destruct (existsInMemoryQueue (video_url v) s) as [it|] eqn:Hmem.
    { exfalso. apply existsInMemoryQueue_Some in Hmem as (Hin & Hu & Hf).
      apply (Hnone (item_id it)). left. exists it. auto. }
    destruct (existsInQueue (video_url v) (downloads s)) as [r|] eqn:Hdb.
    { exfalso. apply existsInQueue_Some in Hdb as (Hin & Hu & Hf).
      apply (Hnone (r_id r)). right. exists r. auto. }
    destruct (wasDownloadedSuccessfully (video_url v) (downloads s)) as [r|] eqn:Hdone.
    + destruct (exec_add_single_skip o u k v s ts _ Hinfo
                  ltac:(unfold duplicate_of; rewrite Hmem, Hdb, Hdone; reflexivity))
        as (s' & He & Hn).
      eexists _, s'. split; [exact He|]. split; [exact Hn|]. cbn.
      apply wasDownloadedSuccessfully_Some in Hdone as (Hin & Hu & Hst).
      repeat split. exists r. auto.
    + exfalso. exact (wasDownloadedSuccessfully_None _ _ _ Hdone Hin0 Hu0 Hst0).
Qed.

Lemma add_skips_duplicates_witness :
  exists sk s',
    exec (uninterrupted sample_oracle) (add "b" video false)
         (store one_running_one_waiting) (tasks one_running_one_waiting)
      = (Done ([], [sk]), s', tasks one_running_one_waiting)
    /\ nothing_created (store one_running_one_waiting) s'
    /\ sk_url sk = video_url (sample_video "b") /\ reason sk = in_queue
    /\ in_flight_job (video_url (sample_video "b")) (store one_running_one_waiting)
                     (existingId sk).
Proof.
  apply (proj1 (add_skips_duplicates sample_oracle (store one_running_one_waiting)
                  (tasks one_running_one_waiting) "b" video (sample_video "b") eq_refl)).
  exists 1. left. exists (deref 1 (store one_running_one_waiting)).
  vm_compute. repeat split. right. left. reflexivity.
Defined.

(** ** Submission: collections *)

Lemma exec_add_one_new o k pl v s ts :
  duplicate_of v s = None ->
  exec (uninterrupted o) (add_one k false pl v) s ts
  = (Done (inr (length (heap s))), created k pl v s, ts).
Proof.
  intros H. unfold add_one. monad.
  rewrite exec_bind, exec_check_duplicate, H. reflexivity.
Qed.

Lemma map_set_fresh {V} (k : nat) (v : V) (m : list (nat * V)) :
  Forall (fun e => fst e <> k) m -> map_set k v m = m ++ [(k, v)].
Proof.
  induction 1 as [|[k' v'] rest Hk _ IH]; cbn; [reflexivity|].
  cbn in Hk. rewrite decide_False by exact Hk. rewrite IH. reflexivity.
Qed.

Lemma getQueue_created k pl v s :
  registry_ok s ->
  getQueue (created k pl v s) = getQueue s ++ [new_item k pl v s].
Proof.
  intros Hok. unfold getQueue, created. cbn.
  rewrite map_set_fresh.
  2:{ eapply Forall_impl; [exact Hok|]. cbn. intros e [H _]. lia. }
  rewrite map_app. cbn. f_equal.
  - apply map_ext_in. intros [id a] Hin. cbn.
    unfold registry_ok in Hok. rewrite Forall_forall in Hok.
    apply list_elem_of_In in Hin. destruct (Hok _ Hin) as [_ Ha]. cbn in Ha.
    unfold deref. cbn. rewrite lookup_app_l by exact Ha. reflexivity.
  - unfold deref. cbn. rewrite list_lookup_middle by reflexivity. reflexivity.
Qed.

Lemma registry_ok_created k pl v s : registry_ok s -> registry_ok (created k pl v s).
Proof.
  intros Hok. unfold registry_ok, created. cbn.
  rewrite map_set_fresh.
  2:{ eapply Forall_impl; [exact Hok|]. cbn. intros e [H _]. lia. }
  apply Forall_app. split.
  - eapply Forall_impl; [exact Hok|]. cbn. intros e [H1 H2].
    rewrite length_app. cbn. lia.
  - constructor; [|constructor]. cbn. rewrite length_app. cbn. lia.
Qed.

Lemma find_app_miss {A} (f : A -> bool) (l : list A) (x : A) :
  f x = false -> List.find f (l ++ [x]) = List.find f l.
Proof.
  intros Hx. induction l as [|y l IH]; cbn.
  - rewrite Hx. reflexivity.
  - destruct (f y); [reflexivity|exact IH].
Qed.

Lemma filter_app_miss {A} (f : A -> bool) (l : list A) (x : A) :
  f x = false -> List.filter f (l ++ [x]) = List.filter f l.
Proof.
  intros Hx. rewrite List.filter_app. cbn. rewrite Hx. apply app_nil_r.
Qed.

Lemma prior_created k pl v s u :
  registry_ok s -> u <> video_url v -> prior u (created k pl v s) = prior u s.
Proof.
  intros Hok Hne. unfold prior, existsInMemoryQueue.
  rewrite (getQueue_created k pl v s Hok).
  rewrite find_app_miss.
  2:{ cbn. rewrite bool_decide_eq_false_2 by congruence. reflexivity. }
  assert (Hd : downloads (created k pl v s)
               = downloads s ++ [mkRow (nextId s) (video_url v) (title (new_item k pl v s))
                                       Pending (now s) None None None k pl 0%Q
                                       (or_else (v_uploader v) (v_channel v)) None])
    by reflexivity.
  rewrite Hd. unfold existsInQueue, wasDownloadedSuccessfully.
  rewrite !filter_app_miss; [reflexivity| |].
  - cbn. rewrite bool_decide_eq_false_2 by congruence. reflexivity.
  - cbn. rewrite bool_decide_eq_false_2 by congruence. reflexivity.
Qed.

Lemma duplicate_of_prior v s :
  match duplicate_of v s with
  | Some sk => sk_url sk = video_url v
               /\ prior (video_url v) s = Some (reason sk, existingId sk)
  | None => prior (video_url v) s = None
  end.
Proof.
  unfold duplicate_of, prior.
  destruct (existsInMemoryQueue (video_url v) s); [split; reflexivity|].
  destruct (existsInQueue (video_url v) (downloads s)); [split; reflexivity|].
  destruct (wasDownloadedSuccessfully (video_url v) (downloads s)); [split; reflexivity|].
  reflexivity.
Qed.

Lemma deref_created k pl v s a :
  a < length (heap s) -> deref a (created k pl v s) = deref a s.
Proof.
  intros Ha. unfold deref, created. cbn. rewrite lookup_app_l by exact Ha. reflexivity.
Qed.

Lemma deref_created_new k pl v s :
  deref (length (heap s)) (created k pl v s) = new_item k pl v s.
Proof.
  unfold deref, created. cbn. rewrite list_lookup_middle by reflexivity. reflexivity.
Qed.

Lemma add_loop_skips o k pl ts vs : forall items skips s,
  registry_ok s ->
  exists new_items new_skips s',
    exec (uninterrupted o) (add_loop k false pl vs items skips) s ts
      = (Done (items ++ new_items, skips ++ new_skips), s', ts)
    /\ registry_ok s'
    /\ (forall u x, prior u s = Some x -> prior u s' = Some x)
    /\ length (heap s) <= length (heap s')
    /\ (forall a, a < length (heap s) -> deref a s' = deref a s)
    /\ (forall a, In a new_items ->
          a < length (heap s') /\ prior (url (deref a s')) s = None)
    /\ (forall v x, In v vs -> prior (video_url v) s = Some x ->
          exists sk, In sk new_skips /\ sk_url sk = video_url v
                     /\ (reason sk, existingId sk) = x)
    /\ length new_items + length new_skips = length vs.
Proof.
  induction vs as [|v rest IH]; intros items skips s Hok.
  - exists [], [], s. cbn. rewrite !app_nil_r.
    repeat split; auto; try contradiction. 
  - cbn [add_loop]. monad. rewrite exec_bind.
    pose proof (duplicate_of_prior v s) as Hdp.
    destruct (duplicate_of v s) as [sk|] eqn:Hdup.
    + destruct Hdp as [Hu Hp].
      rewrite (exec_add_one_skip o k pl v s ts sk Hdup).
      destruct (IH items (skips ++ [sk]) s Hok)
        as (ni & ns & s' & He & Hok' & Hpres & Hlen & Hder & Hnew & Hsk & Hcount).
      exists ni, (sk :: ns), s'. rewrite He, <- app_assoc. cbn.
      repeat split; auto.
      * apply Hnew; assumption.
      * apply Hnew; assumption.
      * intros v' x [<-|Hin] Hx.
        -- exists sk. split; [left; reflexivity|]. split; [exact Hu|]. congruence.
        -- destruct (Hsk v' x Hin Hx) as (sk' & Hin' & H1 & H2).
           exists sk'. split; [right; exact Hin'|]. auto.
      * lia.
    + rewrite (exec_add_one_new o k pl v s ts Hdup).
      pose proof (registry_ok_created k pl v s Hok) as Hok1.
      destruct (IH (items ++ [length (heap s)]) skips (created k pl v s) Hok1)
        as (ni & ns & s' & He & Hok' & Hpres & Hlen & Hder & Hnew & Hsk & Hcount).
      assert (Hlen1 : length (heap (created k pl v s)) = S (length (heap s))).
      { unfold created. cbn. rewrite length_app. cbn. lia. }
      assert (Hpres1 : forall u x, prior u s = Some x -> prior u (created k pl v s) = Some x).
      { intros u x Hx. rewrite prior_created; [exact Hx|exact Hok|].
        intros ->. congruence. }
      exists (length (heap s) :: ni), ns, s'.
      split; [rewrite <- app_assoc in He; exact He|]. split; [exact Hok'|].
      split; [intros u x Hx; apply Hpres, Hpres1, Hx|].
      split; [lia|].
      split; [intros a Ha; rewrite Hder by lia; apply deref_created; exact Ha|].
      split; [|split].
      * intros a [<-|Hin].
        -- split; [lia|]. rewrite Hder by lia. rewrite deref_created_new. exact Hdp.
        -- destruct (Hnew a Hin) as [Ha Hp]. split; [exact Ha|].
           destruct (prior (url (deref a s')) s) as [x|] eqn:Hx; [|reflexivity].
           rewrite (Hpres1 _ _ Hx) in Hp. discriminate.
      * intros v' x [<-|Hin] Hx; [congruence|].
        apply (Hsk v' x Hin). apply Hpres1. exact Hx.
      * cbn. lia.
Qed.

(** X26.  The same for a URL that resolves to any number of videos: every
    resolved video is either created or skipped, each video whose URL the
    duplicate checks find at the time of the call gets a skip with that
    reason and that id, and no item is created for its URL. *)
Theorem add_playlist_skips_duplicates o s ts u k vs :
  info_of o u = inr vs ->
  registry_ok s ->
  exists items skips s' ts',
    exec (uninterrupted o) (add u k false) s ts = (Done (items, skips), s', ts')
    /\ length items + length skips = length vs
    /\ forall v x, In v vs -> prior (video_url v) s = Some x ->
         (exists sk, In sk skips /\ sk_url sk = video_url v /\ (reason sk, existingId sk) = x)
         /\ (forall a, In a items -> url (deref a s') <> video_url v).
Proof.
  intros Hinfo Hok. unfold add. monad. rewrite exec_catch, exec_bind.
  unfold getInfo, settled. cbn [exec uninterrupted]. rewrite Hinfo. cbn [exec].
  rewrite exec_bind.
  assert (Hpl : exists pl s1,
            exec (uninterrupted o)
              (match k with
               | video => Ret None
               | playlist => bind uuidv4 (fun id => Ret (Some id))
               end) s ts = (Done pl, s1, ts)
            /\ registry_ok s1 /\ (forall u, prior u s1 = prior u s)
            /\ heap s1 = heap s).
  { destruct k; cbn.
    - exists None, s. auto.
    - eexists _, _. split; [reflexivity|]. split; [|split; reflexivity].
      unfold registry_ok in *. cbn. eapply Forall_impl; [exact Hok|].
      cbn. intros e [H1 H2]. split; [lia|exact H2]. }
  destruct Hpl as (pl & s1 & -> & Hok1 & Hprior1 & Hheap1).
  rewrite exec_bind.
  destruct (add_loop_skips o k pl ts vs [] [] s1 Hok1)
    as (ni & ns & s2 & He & Hok2 & Hpres & Hlen & Hder & Hnew & Hsk & Hcount).
  cbn [app] in He. rewrite He. rewrite exec_bind.
  assert (Hres : forall s3, heap s3 = heap s2 ->
            forall v x, In v vs -> prior (video_url v) s = Some x ->
              (exists sk, In sk ns /\ sk_url sk = video_url v /\ (reason sk, existingId sk) = x)
              /\ (forall a, In a ni -> url (deref a s3) <> video_url v)).
  { intros s3 H3 v x Hin Hx. rewrite <- Hprior1 in Hx. split.
    - exact (Hsk v x Hin Hx).
    - intros a Ha Hu. destruct (Hnew a Ha) as [_ Hp].
      assert (Hd : deref a s3 = deref a s2) by (unfold deref; rewrite H3; reflexivity).
      rewrite Hd in Hu. rewrite Hu in Hp. congruence. }
  destruct ni as [|a ni]; cbn [fst].
  - cbn. eexists _, _, _, _. split; [reflexivity|]. split; [exact Hcount|].
    apply Hres. reflexivity.
  - cbn [exec emit modify gets bind].
    destruct (head_task processNext _) as [s3 t] eqn:Hht. cbn.
    eexists _, _, _, _. split; [reflexivity|]. split; [exact Hcount|].
    apply Hres.
    unfold head_task, processNext, getCached in Hht. cbn in Hht.
    destruct (cachedSettings s2); cbn in Hht; inversion Hht; reflexivity.
Qed.

(** ** Batch submission *)

Lemma tally_onto_cons acc out outs :
  tally_onto acc (out :: outs) =
  tally_onto (mkBatch (success acc + length (created_by out))
                      (failed acc + length (error_of out))
                      (skipped acc + length (skipped_by out))
                      (b_items acc ++ created_by out)
                      (b_skippedItems acc ++ skipped_by out)
                      (errors acc ++ error_of out)) outs.
Proof.
  unfold tally_onto, tally. cbn.
  rewrite !length_app, !Nat.add_assoc, <- !app_assoc. reflexivity.
Qed.

Lemma addBatch_loop_tally o k force urls : forall acc s ts,
  let '(outs, s', ts') := batch_outcomes o urls k force s ts in
  exec (uninterrupted o) (addBatch_loop urls k force acc) s ts
    = (Done (tally_onto acc outs), s', ts')
  /\ map fst outs = urls.
Proof.
  induction urls as [|u rest IH]; intros acc s ts.
  - cbn. split; [|reflexivity]. unfold tally_onto. cbn.
    rewrite !Nat.add_0_r, !app_nil_r. destruct acc; reflexivity.
  - cbn [batch_outcomes addBatch_loop]. monad.
    rewrite exec_bind, exec_catch, exec_bind.
    pose proof (exec_add_finished o u k force s ts) as Hfin.
    destruct (exec (uninterrupted o) (add u k force) s ts) as [[[r|e|R w kk] s1] ts1];
      cbn in Hfin; [| |contradiction].
    + cbn [exec].
      specialize (IH (mkBatch (success acc + length r.1) (failed acc)
                              (skipped acc + length r.2) (b_items acc ++ r.1)
                              (b_skippedItems acc ++ r.2) (errors acc)) s1 ts1).
      destruct (batch_outcomes o rest k force s1 ts1) as [[outs s2] ts2].
      destruct IH as [-> <-]. split; [|reflexivity].
      rewrite tally_onto_cons. cbn. rewrite !Nat.add_0_r, !app_nil_r. reflexivity.
    + cbn [exec].
      specialize (IH (mkBatch (success acc) (failed acc + 1) (skipped acc)
                              (b_items acc) (b_skippedItems acc) (errors acc ++ [(u, e)]))
                     s1 ts1).
      destruct (batch_outcomes o rest k force s1 ts1) as [[outs s2] ts2].
      destruct IH as [-> <-]. split; [|reflexivity].
      rewrite tally_onto_cons. cbn. rewrite !Nat.add_0_r, !app_nil_r. reflexivity.
Qed.

(** C9. [addBatch] goes through the URLs one after the other, in list
    order, whatever each [add] does: there is one outcome per URL (the
    outcomes' URLs are the list itself), a call that throws only counts
    as failed and leaves its [{url, error}] pair while the calls after it
    still run, and the batch returns, never throws, with [success],
    [skipped] and [failed] equal to the numbers of created items, of
    skipped items and of URLs whose [add] threw.  (No other request
    interleaves with the batch.) *)
Theorem addBatch_aggregates o urls k force s ts :
  let '(outs, s', ts') := batch_outcomes o urls k force s ts in
  exec (uninterrupted o) (addBatch urls k force) s ts = (Done (tally outs), s', ts')
  /\ map fst outs = urls.
Proof.
  pose proof (addBatch_loop_tally o k force urls (mkBatch 0 0 0 [] [] []) s ts) as H.
  unfold addBatch.
  destruct (batch_outcomes o urls k force s ts) as [[outs s'] ts'].
  exact H.
Qed.

(** A batch of three URLs whose second cannot be resolved: two items are
    created, one failure is reported, nothing is skipped. *)
Example addBatch_continues_past_failure :
  let o := mkOracle (fun u => if decide (u = "bad") then inl "ERROR: Unsupported URL"
                              else inr [sample_video u])
                    (fun _ => inl "no details") in
  match exec (uninterrupted o) (addBatch ["a"; "bad"; "c"] video false) init [] with
  | (Done r, s, _) =>
      success r = 2 /\ failed r = 1 /\ skipped r = 0
      /\ errors r = [("bad", "Erro ao adicionar à fila: ERROR: Unsupported URL")]
      /\ map (fun it => (item_id it, url it)) (getQueue s) = [(0, "a"); (1, "c")]
  | _ => False
  end.
Proof. vm_compute. repeat split. Qed.

(** ** Control operations *)

(** C4. [pause(id)] on a registry item whose status is not 'downloading'
    throws at once, and [resume(id)] on one whose status is not 'paused'
    does too; in both cases the whole state is as before: the item and the
    registry are unchanged, nothing was written, nothing was emitted (the
    trace is part of the state) and no task is left behind.  This holds
    however awaits are answered, since none is reached. *)
Theorem pause_resume_misuse_rejected pol s ts id a :
  queue_get id s = Some a ->
  (status (deref a s) <> Downloading ->
     exec pol (pause id) s ts
       = (Failed "Apenas downloads em andamento podem ser pausados", s, ts))
  /\ (status (deref a s) <> Paused ->
     exec pol (resume id) s ts
       = (Failed "Apenas downloads pausados podem ser continuados", s, ts)).
Proof.
  intros Hq. split; intros Hst.
  - unfold pause. cbn. rewrite Hq. cbn.
    rewrite bool_decide_eq_true_2 by exact Hst. reflexivity.
  - unfold resume. cbn. rewrite Hq. cbn.
    rewrite bool_decide_eq_true_2 by exact Hst. reflexivity.
Qed.

Lemma pause_resume_misuse_rejected_witness :
  exec blocking (pause 1) (store one_running_one_waiting) (tasks one_running_one_waiting)
    = (Failed "Apenas downloads em andamento podem ser pausados",
       store one_running_one_waiting, tasks one_running_one_waiting)
  /\ exec blocking (resume 1) (store one_running_one_waiting) (tasks one_running_one_waiting)
    = (Failed "Apenas downloads pausados podem ser continuados",
       store one_running_one_waiting, tasks one_running_one_waiting).
Proof.
  destruct (pause_resume_misuse_rejected blocking (store one_running_one_waiting)
              (tasks one_running_one_waiting) 1 1 eq_refl) as [Hp Hr].
  split; [apply Hp | apply Hr]; vm_compute; discriminate.
Defined.

(** [remove(id)] throws, and changes nothing, when the id is not listed or
    the item is downloading or paused. *)
Lemma remove_rejects pol s ts id :
  (queue_get id s = None ->
     exec pol (remove id) s ts = (Failed "Item não encontrado", s, ts))
  /\ (forall a, queue_get id s = Some a ->
        status (deref a s) = Downloading \/ status (deref a s) = Paused ->
        exec pol (remove id) s ts = (Failed "Cancele o download antes de remover", s, ts)).
Proof.
  split.
  - intros Hq. unfold remove. cbn. rewrite Hq. reflexivity.
  - intros a Hq Hst. unfold remove. cbn. rewrite Hq. cbn.
    destruct Hst as [-> | ->]; reflexivity.
Qed.

(** Whatever the state, [cancel] of a downloading or paused job with a
    registered worker decrements [activeDownloads] before it returns and
    leaves the 'cancelled' listener suspended on its write; when that
    listener resumes, it decrements once more. *)
Lemma cancel_active_decrements_twice s ts id a pid was_paused :
  queue_get id s = Some a ->
  status (deref a s) = Downloading \/ status (deref a s) = Paused ->
  a < length (heap s) ->
  activeProcesses s !! id = Some (pid, was_paused) ->
  exists s1 k t,
    exec blocking (cancel id) s ts
      = (Done true, s1,
         (ts ++ [MkTask (WWrite (UpdateStatus id Cancelled None None)) k]) ++ [t])
    /\ activeDownloads s1 = (activeDownloads s - 1)%Z
    /\ queue_get id s1 = map_get id (map_delete id (queue s))
    /\ forall s2 ts2,
         activeDownloads (fst (park (exec blocking (k tt) s2 ts2))) = (activeDownloads s2 - 1)%Z.
Proof.
  intros Hq Hst Ha Hp. unfold cancel. cbn. rewrite Hq. cbn.
  assert (Hb : bool_decide (status (deref a s) = Downloading)
               || bool_decide (status (deref a s) = Paused) = true).
  { destruct Hst as [-> | ->]; reflexivity. }
  rewrite Hb. cbn. rewrite Hp. cbn.
  assert (Hd : forall s0, heap s0 = alter (set_status Cancelled) a (heap s) ->
            bool_decide (status (deref a s0) = Pending) = false).
  { intros s0 H0. unfold deref. rewrite H0, list_lookup_alter.
    destruct (lookup_lt_is_Some_2 (heap s) a Ha) as [it ->].
    rewrite decide_True by reflexivity. reflexivity. }
  assert (Hk : forall a0 s2 ts2,
    activeDownloads (park (exec blocking
       (Sync (fun s0 : Store => (deref a0 s0, s0))
          (fun b : Item =>
             Sync (fun s0 : Store => (tt, observe (Emitted (EvStatusChange b)) s0))
               (fun _ : unit =>
                  Sync (fun s0 : Store => (tt, with_activeDownloads (fun n : Z => (n - 1)%Z) s0))
                    (fun _ : unit => CallProcessNext (Ret tt))))) s2 ts2)).1
    = (activeDownloads s2 - 1)%Z).
  { intros a0 s2 ts2. cbn. destruct (cachedSettings s2); reflexivity. }
  destruct was_paused; cbn;
    change (map_get id (queue s)) with (queue_get id s); rewrite Hq; cbn;
    rewrite Hd by reflexivity; cbn.
  - destruct (cachedSettings s); cbn; eexists _, _, _;
      (split; [reflexivity|]); (split; [reflexivity|]); (split; [reflexivity|]); apply Hk.
  - destruct (cachedSettings s); cbn; eexists _, _, _;
      (split; [reflexivity|]); (split; [reflexivity|]); (split; [reflexivity|]); apply Hk.
Qed.

(** [remove] goes through for every status other than 'downloading' and
    'paused', 'converting' included, and leaves the workers alone. *)
Lemma remove_detaches_unlisted_status pol s ts id a :
  queue_get id s = Some a ->
  status (deref a s) <> Downloading -> status (deref a s) <> Paused ->
  exists s',
    exec pol (remove id) s ts = (Done true, s', ts)
    /\ queue s' = map_delete id (queue s)
    /\ activeProcesses s' = activeProcesses s
    /\ trace s' = trace s ++ [Emitted (EvRemoved id)].
Proof.
  intros Hq H1 H2. unfold remove. cbn. rewrite Hq. cbn.
  rewrite !bool_decide_eq_false_2 by assumption. cbn.
  eexists. repeat split.
Qed.

(** [processNext] starts nothing while [activeDownloads] is at the limit
    or above it. *)
Lemma processNext_guard pol st s ts :
  (Z.of_nat (limit_of st) <= activeDownloads s)%Z ->
  exec pol (start_next st) s ts = (Done tt, s, ts).
Proof.
  intros H. unfold start_next. cbn.
  destruct (Z.leb_spec (Z.of_nat (limit_of st)) (activeDownloads s)); [reflexivity|lia].
Qed.

(** When it starts a job, it takes the first pending item in the
    registry's iteration order. *)
Lemma processNext_first pol st s ts id :
  (activeDownloads s < Z.of_nat (limit_of st))%Z ->
  first_pending s = Some id ->
  exec pol (start_next st) s ts
  = (let '(s', ts') := park (exec blocking (startDownload id) s ts) in (Done tt, s', ts')).
Proof.
  intros H Hf. unfold start_next. cbn [exec gets bind mbind Prog_bind fst snd].
  destruct (Z.leb_spec (Z.of_nat (limit_of st)) (activeDownloads s)); [lia|].
  cbn [exec gets bind mbind Prog_bind fst snd]. rewrite Hf. cbn [exec].
  destruct (park (exec blocking (startDownload id) s ts)) as [s' ts']. reflexivity.
Qed.

(** ** Where the code departs from the specification *)

(** C1 (the code exceeds the limit).  With [maxConcurrent] 1, job 0
    downloading and jobs 1 and 2 pending, the client cancels job 0.
    [cancel] and the 'cancelled' listener both decrement [activeDownloads]
    for that one job, so two admissions follow: jobs 1 and 2 are
    downloading together under a limit of 1, while [activeDownloads]
    says 1. *)
Theorem limit_exceeded_after_cancel :
  limit_of <$> cachedSettings (store one_running_two_waiting) = Some 1
  /\ listing one_running_two_waiting = [(0, Downloading, 7); (1, Pending, 15); (2, Pending, 21)]
  /\ activeDownloads (store one_running_two_waiting) = 1%Z
  /\ listing running_job_cancelled = [(1, Downloading, 15); (2, Downloading, 21)]
  /\ count_status Downloading (store running_job_cancelled) = 2
  /\ limit_of <$> cachedSettings (store running_job_cancelled) = Some 1
  /\ activeDownloads (store running_job_cancelled) = 1%Z.
Proof. vm_compute. repeat split. Qed.

(** C2 (the code decrements more than once).  A paused job is cancelled.
    Subscribers are told 'cancelled' and never 'downloading' again, and
    the worker gets SIGCONT then SIGTERM; but [activeDownloads] goes from
    1 to 0 when [cancel] returns, to -1 when the 'cancelled' listener
    resumes, and to -3 once the killed worker closes (its 'close' handler
    and the rejected [download] promise each call [handleError]). *)
Theorem paused_cancel_decrements_twice :
  listing one_paused = [(0, Paused, 4)]
  /\ activeDownloads (store one_paused) = 1%Z
  /\ activeDownloads (store paused_cancel_returned) = 0%Z
  /\ activeDownloads (store paused_cancel_settled) = (-1)%Z
  /\ activeDownloads (store paused_cancel_closed) = (-3)%Z
  /\ announced 0 (drop (length (trace (store one_paused)))
                       (trace (store paused_cancel_closed))) = [Cancelled]
  /\ signals_to 0 (trace (store paused_cancel_closed)) = [SIGSTOP; SIGCONT; SIGTERM].
Proof. vm_compute. repeat split. Qed.

(** C6 (the code emits after a terminal status).  The worker of job 0
    writes a line without "WARNING" to stderr: the job is persisted and
    announced as 'error'.  The worker goes on, and its next progress line
    is emitted as a 'progress' event for job 0, which is listed as
    'downloading' again while the table says 'error'. *)
Theorem progress_after_error :
  announced 0 (trace (store stderr_then_progress)) = [Downloading; Error; Downloading]
  /\ quiet_after_terminal 0 false (trace (store stderr_then_progress)) = false
  /\ listing stderr_then_progress = [(0, Downloading, 4)]
  /\ map (fun r => (r_id r, r_status r)) (downloads (store stderr_then_progress))
     = [(0, Error)].
Proof. vm_compute. repeat split. Qed.

(** C7 (the code does not start the oldest pending job).  Job 0 failed and
    is still listed when the client retries it: [queue.set] keeps the
    id's place at the head of the registry and stamps the new item with
    the time of the retry (41).  Job 3, pending since 36, is the oldest
    pending job; the next admission nevertheless takes job 0. *)
Theorem retried_job_jumps_the_queue :
  listing retried_while_listed
    = [(0, Pending, 41); (1, Downloading, 15); (2, Downloading, 21); (3, Pending, 36)]
  /\ oldest_pending (store retried_while_listed) = Some 3
  /\ first_pending (store retried_while_listed) = Some 0
  /\ listing slot_freed_after_retry
    = [(0, Downloading, 41); (1, Completed, 15); (2, Downloading, 21); (3, Pending, 36)].
Proof. vm_compute. repeat split. Qed.

(** C8 (the code emits before the write).  When a downloading job is
    cancelled, [cancel] returns having emitted 'removed' while the write
    of 'cancelled' is still under way and the table says 'downloading';
    in the full trace 'removed' is observation 7 and the write completes
    at 9.  When a job is paused, the 'paused' listener emits
    'statusChange' (observation 7) before [pause] has sent the write
    (completed at 8). *)
Theorem events_before_persistence :
  drop (length (trace (store one_running))) (trace (store running_cancel_returned))
    = [Signalled 0 SIGTERM; Emitted (EvRemoved 0); Replied (inr tt)]
  /\ map (fun r => (r_id r, r_status r)) (downloads (store running_cancel_returned))
     = [(0, Downloading)]
  /\ first_index (is_removed 0) (trace (store (quiesce 64 running_cancel_returned))) = Some 7
  /\ first_index (persists 0 Cancelled) (trace (store (quiesce 64 running_cancel_returned)))
     = Some 9
  /\ first_index (tells 0 Paused) (trace (store one_paused)) = Some 7
  /\ first_index (persists 0 Paused) (trace (store one_paused)) = Some 8
  /\ mirrored_first [] (trace (store one_paused)) = false.
Proof. vm_compute. repeat split. Qed.

(** C10 (the code lets [remove] detach a live job).  Once the worker has
    reported 100%, the 'progress' listener sets the status to
    'converting', which [remove]'s guard does not list: [remove] deletes
    the item and emits 'removed' while the worker is still registered,
    has not closed and was sent no signal.  [cancel] on that job does the
    same: its test for an active job lists the same two statuses, so it
    removes the item without a signal to the worker. *)
Theorem converting_job_removed :
  listing one_converting = [(0, Converting, 4)]
  /\ activeProcesses (store one_converting) !! 0 = Some (0, false)
  /\ listing converting_removed = []
  /\ activeProcesses (store converting_removed) !! 0 = Some (0, false)
  /\ p_closed <$> procs (store converting_removed) !! 0 = Some false
  /\ signals_to 0 (trace (store converting_removed)) = []
  /\ drop (length (trace (store one_converting))) (trace (store converting_removed))
     = [Emitted (EvRemoved 0); Replied (inr tt)]
  /\ listing converting_cancelled = []
  /\ activeProcesses (store converting_cancelled) !! 0 = Some (0, false)
  /\ signals_to 0 (trace (store converting_cancelled)) = []
  /\ drop (length (trace (store one_converting))) (trace (store converting_cancelled))
     = [Emitted (EvRemoved 0); Replied (inr tt)].
Proof. vm_compute. repeat split. Qed.

(** ** The specification's scenarios, run *)

(** Limit 1, [a] then [b]: [a] runs and [b] waits; when [a] completes,
    [b] runs without further input. *)
Example next_starts_on_completion :
  listing one_running_one_waiting = [(0, Downloading, 7); (1, Pending, 15)]
  /\ listing first_completed = [(0, Completed, 7); (1, Downloading, 15)]
  /\ activeDownloads (store first_completed) = 1%Z.
Proof. vm_compute. repeat split. Qed.

(** A collection of three members whose second is already pending: two
    jobs are created, sharing one playlist id (which took identifier 2),
    and the registry stays well formed. *)
Example playlist_member_skipped :
  listing playlist_with_duplicate
    = [(0, Downloading, 7); (1, Pending, 15); (3, Pending, 21); (4, Pending, 24)]
  /\ map playlistId (getQueue (store playlist_with_duplicate)) = [None; None; Some 2; Some 2]
  /\ registry_ok (store playlist_with_duplicate).
Proof. vm_compute. repeat split; repeat constructor. Qed.

(** Retrying a completed job is refused. *)
Example retry_completed_rejected :
  drop (length (trace (store first_completed)))
       (trace (store (play [Call (RetryItem 0)] first_completed)))
  = [Replied (inl "Apenas downloads com erro ou cancelados podem ser re-tentados")].
Proof. vm_compute. reflexivity. Qed.

(** In every scenario above the runtime had nothing left to resume: what
    is still suspended waits for a worker. *)
Example scenarios_settled :
  Forall (fun sys => next_ready (tasks sys) = None)
    [one_running_two_waiting; running_job_cancelled; one_paused; paused_cancel_settled;
     paused_cancel_closed; stderr_then_progress; retried_while_listed;
     slot_freed_after_retry; one_converting; converting_removed; converting_cancelled;
     one_running_one_waiting; first_completed; playlist_with_duplicate].
Proof. repeat constructor. Qed.

(* ===================================================================== *)
(** * Further properties of the code *)

(** ** The progress pattern of the stdout handler *)

Lemma append_cons c (a b : string) : String c a +:+ b = String c (a +:+ b).
Proof. reflexivity. Qed.

Lemma append_nil (b : string) : EmptyString +:+ b = b.
Proof. reflexivity. Qed.

Lemma append_assoc (a b c : string) : (a +:+ b) +:+ c = a +:+ (b +:+ c).
Proof.
  induction a as [|x a IH]; [reflexivity|]. rewrite !append_cons, IH. reflexivity.
Qed.

Lemma span_digits_spec s :
  s = fst (span_digits s) +:+ snd (span_digits s)
  /\ digits_only (fst (span_digits s)) = true.
Proof.
  induction s as [|c rest [IH1 IH2]]; cbn; [split; reflexivity|].
  destruct (is_digit c) eqn:Hc.
  - destruct (span_digits rest) as [d r]. cbn in *.
    split; [rewrite append_cons; f_equal; exact IH1|].
    rewrite Hc. exact IH2.
  - cbn. split; reflexivity.
Qed.

Lemma span_digits_all d :
  digits_only d = true -> span_digits d = (d, EmptyString).
Proof.
  induction d as [|c d IH]; cbn; [reflexivity|].
  intros H. apply andb_prop in H as [Hc Hd]. rewrite Hc, (IH Hd). reflexivity.
Qed.

Lemma match_percent_here_spec s g :
  match_percent_here s = Some g ->
  exists d1 d2 post,
    s = g +:+ "%" +:+ post
    /\ digits_only d1 = true /\ d1 <> EmptyString /\ digits_only d2 = true
    /\ (g = d1 \/ g = d1 +:+ "." +:+ d2).
Proof.
  unfold match_percent_here. intros H.
  destruct (span_digits_spec s) as [Hs Hd].
  destruct (span_digits s) as [d1 r1]. cbn in Hs, Hd.
  destruct d1 as [|c d1]; [discriminate|].
  destruct r1 as [|x r1]; [discriminate|].
  destruct (ascii_dec x "%") as [->|Hx1].
  - inversion H; subst g. exists (String c d1), EmptyString, r1.
    repeat split; auto; try discriminate.
  - destruct (ascii_dec x ".") as [->|Hx2].
    + destruct (span_digits_spec r1) as [Hs2 Hd2].
      destruct (span_digits r1) as [d2 r3]. cbn in Hs2, Hd2.
      destruct r3 as [|y r3]; [discriminate|].
      destruct (ascii_dec y "%") as [->|Hy].
      * inversion H; subst g. exists (String c d1), d2, r3.
        split.
        { rewrite Hs, Hs2. rewrite !append_cons, !append_assoc, !append_cons. reflexivity. }
        repeat split; auto; try discriminate.
      * exfalso. revert H.
        destruct y as [[] [] [] [] [] [] [] []]; try discriminate. congruence.
    + exfalso. revert H.
      destruct x as [[] [] [] [] [] [] [] []]; try discriminate; congruence.
Qed.

(** X1. What the stdout handler's pattern captures: when [output.match]
    succeeds, the captured group stands in the output right before a
    percent sign, and it is a non-empty run of digits, or such a run, a dot
    and a (possibly empty) run of digits.  So [parseFloat] is only ever
    given an unsigned decimal. *)
Theorem progress_text_precedes_percent output g :
  match_percent output = Some g ->
  exists pre post d1 d2,
    output = pre +:+ g +:+ "%" +:+ post
    /\ digits_only d1 = true /\ d1 <> EmptyString /\ digits_only d2 = true
    /\ (g = d1 \/ g = d1 +:+ "." +:+ d2).
Proof.
  induction output as [|c rest IH]; intros H.
  - cbn in H. discriminate.
  - cbn [match_percent] in H.
    destruct (match_percent_here (String c rest)) as [g'|] eqn:Hh.
    + inversion H; subst g'.
      destruct (match_percent_here_spec _ _ Hh) as (d1 & d2 & post & Hs & Hrest).
      exists EmptyString, post, d1, d2. split; [exact Hs|exact Hrest].
    + destruct (IH H) as (pre & post & d1 & d2 & Hs & Hrest).
      exists (String c pre), post, d1, d2.
      split; [rewrite append_cons; congruence|exact Hrest].
Qed.

Lemma progress_text_precedes_percent_witness :
  exists pre post d1 d2,
    "[download]  45.3% of 3.50MiB" = pre +:+ "45.3" +:+ "%" +:+ post
    /\ digits_only d1 = true /\ d1 <> EmptyString /\ digits_only d2 = true
    /\ ("45.3" = d1 \/ "45.3" = d1 +:+ "." +:+ d2).
Proof.
  apply (progress_text_precedes_percent "[download]  45.3% of 3.50MiB" "45.3").
  vm_compute. reflexivity.
Defined.

Section ConvertingFacts.
Variable F : Type.
Variable parse : string -> F.
Variable lt : F -> F -> bool.
Variable hundred : F.
Hypothesis lt_trans : forall a b c, lt a b = true -> lt b c = true -> lt a c = true.

Lemma stdout_stream_status {Id} (downloadId : Id) chunks : forall lastProgress,
  Forall (fun e => Worker.pe_status e
                   = if lt (Worker.pe_progress e) hundred
                     then Worker.sub_downloading else Worker.sub_converting)
         (Worker.stdout_stream parse lt hundred downloadId lastProgress chunks).
Proof.
  induction chunks as [|c rest IH]; intros lastProgress; simpl; [constructor|].
  unfold Worker.stdout_progress.
  destruct (match_percent c) as [g|]; [|apply IH].
  destruct (lt lastProgress (parse g)) eqn:Hlt; [|apply IH].
  constructor; [reflexivity|apply IH].
Qed.

Lemma stdout_stream_beyond {Id} (downloadId : Id) chunks : forall lastProgress,
  lt lastProgress hundred = false ->
  Forall (fun e => Worker.pe_status e = Worker.sub_converting)
         (Worker.stdout_stream parse lt hundred downloadId lastProgress chunks).
Proof.
  intros lastProgress Hlast.
  pose proof (stdout_stream_status downloadId chunks lastProgress) as Hst.
  pose proof (stdout_stream_above F parse lt hundred lt_trans downloadId chunks lastProgress)
    as Hab.
  rewrite Forall_map in Hab.
  rewrite Forall_forall in *. intros e He.
  rewrite (Hst e He).
  destruct (lt (Worker.pe_progress e) hundred) eqn:E; [|reflexivity].
  rewrite (lt_trans _ _ _ (Hab e He) E) in Hlast. discriminate.
Qed.

(** X2. Once a worker's 'progress' event says 'converting', every later
    'progress' event of that worker says 'converting' too: the sub-status
    never goes back to 'downloading'.  (Over any number type whose [<] is
    transitive.) *)
Theorem converting_is_final {Id} (downloadId : Id) chunks : forall lastProgress pre e post,
  Worker.stdout_stream parse lt hundred downloadId lastProgress chunks = pre ++ e :: post ->
  Worker.pe_status e = Worker.sub_converting ->
  Forall (fun e' => Worker.pe_status e' = Worker.sub_converting) post.
Proof.
  induction chunks as [|c rest IH]; intros lastProgress pre e post Hs He.
  - destruct pre; discriminate.
  - simpl in Hs. unfold Worker.stdout_progress in Hs.
    destruct (match_percent c) as [g|]; [|exact (IH _ _ _ _ Hs He)].
    destruct (lt lastProgress (parse g)) eqn:Hlt; [|exact (IH _ _ _ _ Hs He)].
    destruct pre as [|x pre]; cbn in Hs.
    + inversion Hs as [[H1 H2]]. subst e.
      cbn in He. destruct (lt (parse g) hundred) eqn:E; [discriminate|].
      apply stdout_stream_beyond. exact E.
    + inversion Hs as [[H1 H2]]. exact (IH _ _ _ _ H2 He).
Qed.
End ConvertingFacts.

Lemma converting_is_final_witness :
  Forall (fun e' => Worker.pe_status e' = Worker.sub_converting)
         [Worker.mkProgressEvent 7 (parseFloat "101.0") Worker.sub_converting].
Proof.
  apply (converting_is_final Q parseFloat Qltb 100%Q Qltb_trans 7
           ["[download]  99.5% of 3.50MiB"; "[download] 100% of 3.50MiB";
            "[download] 100.0% of 3.50MiB"; "[download] 101.0%"] 0%Q
           [Worker.mkProgressEvent 7 (parseFloat "99.5") Worker.sub_downloading]
           (Worker.mkProgressEvent 7 (parseFloat "100") Worker.sub_converting)).
  - vm_compute. reflexivity.
  - reflexivity.
Defined.

Lemma prefix_append (needle post : string) : String.prefix needle (needle +:+ post) = true.
Proof.
  induction needle as [|c needle IH]; [destruct post; reflexivity|].
  rewrite append_cons. cbn. destruct (ascii_dec c c) as [_|Hn]; [exact IH|].
  destruct Hn. reflexivity.
Qed.

Lemma includes_prefix (needle hay : string) :
  String.prefix needle hay = true -> includes needle hay = true.
Proof. intros H. destruct hay; cbn [includes]; rewrite H; reflexivity. Qed.

Lemma includes_infix (needle pre post : string) :
  includes needle (pre +:+ needle +:+ post) = true.
Proof.
  induction pre as [|c pre IH].
  - rewrite append_nil. apply includes_prefix, prefix_append.
  - rewrite append_cons. cbn [includes]. rewrite IH.
    destruct (String.prefix needle (String c (pre +:+ needle +:+ post))); reflexivity.
Qed.

(** X3. The stderr handler ignores every chunk that has the text WARNING
    anywhere in it, whatever else the chunk says: nothing is emitted, no
    job is failed, the state is as before. *)
Theorem stderr_warning_ignored pol pr pre post s ts :
  exec pol (on_stderr pr (pre +:+ "WARNING" +:+ post)) s ts = (Done tt, s, ts).
Proof. unfold on_stderr. rewrite includes_infix. reflexivity. Qed.

(** ** The downloads table *)



(** [pick_last] returns a maximum of a strict weak order. *)
Lemma pick_last_best after rows :
  (forall a, after a a = false) ->
  (forall a b c, after a b = true -> after b c = true -> after a c = true) ->
  (forall a b c, after a c = true -> after a b = true \/ after b c = true) ->
  forall best r,
    pick_last after best rows = Some r ->
    (forall x, In x rows -> after x r = false)
    /\ (forall b, best = Some b -> after b r = false).
Proof.
  intros Hirr Htr Hneg. induction rows as [|x rest IH]; intros best r H; cbn in H.
  - subst best. split; [intros x []|]. intros b [= ->]. apply Hirr.
  - destruct best as [b|].
    + destruct (after x b) eqn:Hxb.
      * destruct (IH (Some x) r H) as [H1 H2]. specialize (H2 x eq_refl). split.
        -- intros y [<-|Hy]; [exact H2|apply H1, Hy].
        -- intros b' [= <-]. destruct (after b r) eqn:E; [|reflexivity].
           destruct (Hneg _ x _ E) as [Hbx|Hxr]; [|congruence].
           pose proof (Htr _ _ _ Hxb Hbx) as Hxx. rewrite Hirr in Hxx. discriminate.
      * destruct (IH (Some b) r H) as [H1 H2]. specialize (H2 b eq_refl). split.
        -- intros y [<-|Hy]; [|apply H1, Hy].
           destruct (after x r) eqn:E; [|reflexivity].
           destruct (Hneg _ b _ E) as [Hyb|Hbr]; congruence.
        -- intros b' [= <-]. exact H2.
    + destruct (IH (Some x) r H) as [H1 H2]. specialize (H2 x eq_refl). split.
      * intros y [<-|Hy]; [exact H2|apply H1, Hy].
      * intros b [=].
Qed.

Lemma created_after_order :
  (forall a, created_after a a = false)
  /\ (forall a b c, created_after a b = true -> created_after b c = true ->
                    created_after a c = true)
  /\ (forall a b c, created_after a c = true ->
                    created_after a b = true \/ created_after b c = true).
Proof.
  unfold created_after. repeat split.
  - intros a. apply Nat.ltb_irrefl.
  - intros a b c H1 H2. apply Nat.ltb_lt in H1, H2. apply Nat.ltb_lt. lia.
  - intros a b c H. apply Nat.ltb_lt in H.
    destruct (Nat.ltb_spec (r_created_at b) (r_created_at a)); [left; reflexivity|].
    right. apply Nat.ltb_lt. lia.
Qed.

Lemma finished_after_order :
  (forall a, finished_after a a = false)
  /\ (forall a b c, finished_after a b = true -> finished_after b c = true ->
                    finished_after a c = true)
  /\ (forall a b c, finished_after a c = true ->
                    finished_after a b = true \/ finished_after b c = true).
Proof.
  unfold finished_after. repeat split.
  - intros a. destruct (r_finished_at a); [apply Nat.ltb_irrefl|reflexivity].
  - intros a b c.
    destruct (r_finished_at a), (r_finished_at b), (r_finished_at c);
      try discriminate; try reflexivity.
    intros H1 H2. apply Nat.ltb_lt in H1, H2. apply Nat.ltb_lt. lia.
  - intros a b c.
    destruct (r_finished_at a) as [x|], (r_finished_at b) as [y|],
             (r_finished_at c) as [z|]; try discriminate; auto.
    intros H. apply Nat.ltb_lt in H.
    destruct (Nat.ltb_spec y x); [left; reflexivity|].
    right. apply Nat.ltb_lt. lia.
Qed.

(** X5. [existsInQueue(url)] returns a row of the table with that URL
    whose status is pending, downloading or paused, and none of the rows
    with that URL and such a status was created later; it returns nothing
    exactly when the table has no such row. *)
Theorem existsInQueue_latest u rows :
  match existsInQueue u rows with
  | Some r =>
      In r rows /\ r_url r = u /\ in_flight (r_status r) = true
      /\ forall r', In r' rows -> r_url r' = u -> in_flight (r_status r') = true ->
                    r_created_at r' <= r_created_at r
  | None => forall r', In r' rows -> r_url r' = u -> in_flight (r_status r') = false
  end.
Proof.
  destruct (existsInQueue u rows) as [r|] eqn:H.
  - destruct (existsInQueue_Some _ _ _ H) as (Hin & Hu & Hf).
    repeat split; auto. intros r' Hin' Hu' Hf'.
    destruct created_after_order as (Hirr & Htr & Hneg).
    destruct (pick_last_best _ _ Hirr Htr Hneg _ _ H) as [Hbest _].
    assert (Hm : In r' (List.filter
              (fun r => bool_decide (r_url r = u) && in_flight (r_status r)) rows)).
    { apply List.filter_In. split; [exact Hin'|].
      rewrite bool_decide_eq_true_2 by exact Hu'. exact Hf'. }
    specialize (Hbest r' Hm). unfold created_after in Hbest.
    apply Nat.ltb_ge in Hbest. exact Hbest.
  - intros r' Hin' Hu'. exact (existsInQueue_None _ _ _ H Hin' Hu').
Qed.

(** X6. [wasDownloadedSuccessfully(url)] returns a completed row of the
    table with that URL, and none of the completed rows with that URL
    sorts after it by finish time (a missing finish time sorts last, as
    NULL does under DESC); it returns nothing exactly when the table has no
    completed row for the URL. *)
Theorem wasDownloadedSuccessfully_latest u rows :
  match wasDownloadedSuccessfully u rows with
  | Some r =>
      In r rows /\ r_url r = u /\ r_status r = Completed
      /\ forall r', In r' rows -> r_url r' = u -> r_status r' = Completed ->
                    match r_finished_at r', r_finished_at r with
                    | Some t', Some t => t' <= t
                    | None, Some _ => False
                    | _, None => True
                    end
  | None => forall r', In r' rows -> r_url r' = u -> r_status r' <> Completed
  end.
Proof.
  destruct (wasDownloadedSuccessfully u rows) as [r|] eqn:H.
  - destruct (wasDownloadedSuccessfully_Some _ _ _ H) as (Hin & Hu & Hf).
    repeat split; auto. intros r' Hin' Hu' Hf'.
    destruct finished_after_order as (Hirr & Htr & Hneg).
    destruct (pick_last_best _ _ Hirr Htr Hneg _ _ H) as [Hbest _].
    assert (Hm : In r' (List.filter
              (fun r => bool_decide (r_url r = u) && bool_decide (r_status r = Completed))
              rows)).
    { apply List.filter_In. split; [exact Hin'|].
      rewrite !bool_decide_eq_true_2 by assumption. reflexivity. }
    specialize (Hbest r' Hm). unfold finished_after in Hbest.
    destruct (r_finished_at r') as [t'|], (r_finished_at r) as [t|]; auto; try discriminate.
    apply Nat.ltb_ge in Hbest. exact Hbest.
  - intros r' Hin' Hu'. exact (wasDownloadedSuccessfully_None _ _ _ H Hin' Hu').
Qed.




Lemma filter_filter_keep {A} (p q : A -> bool) (l : list A) :
  (forall x, p x = true -> q x = true) ->
  List.filter p (List.filter q l) = List.filter p l.
Proof.
  intros H. induction l as [|x l IH]; cbn; [reflexivity|].
  destruct (q x) eqn:Hq; cbn.
  - destruct (p x); [f_equal|]; exact IH.
  - destruct (p x) eqn:Hp; [|exact IH]. rewrite (H x Hp) in Hq. discriminate.
Qed.

Lemma filter_filter_none {A} (p q : A -> bool) (l : list A) :
  (forall x, p x = true -> q x = false) ->
  List.filter p (List.filter q l) = [].
Proof.
  intros H. induction l as [|x l IH]; cbn; [reflexivity|].
  destruct (q x) eqn:Hq; cbn; [|exact IH].
  destruct (p x) eqn:Hp; [|exact IH]. rewrite (H x Hp) in Hq. discriminate.
Qed.

(** X30. [clearAll()] of the history deletes exactly the completed, failed
    and cancelled rows and reports their number.  Afterwards
    [existsInQueue] answers as before for every URL, a row that was not
    finished is still found by its id, and [wasDownloadedSuccessfully]
    finds nothing for any URL: every URL can be submitted again. *)
Theorem clearAll_keeps_active rows :
  let '(kept, rowCount) := clearAll rows in
  rowCount + length kept = length rows
  /\ (forall u, existsInQueue u kept = existsInQueue u rows)
  /\ (forall u, wasDownloadedSuccessfully u kept = None)
  /\ (forall id r, getById id rows = Some r -> terminal (r_status r) = false ->
        getById id kept = Some r).
Proof.
  unfold clearAll. split; [|split; [|split]].
  - induction rows as [|x rows IH]; cbn; [reflexivity|].
    destruct (terminal (r_status x)); cbn; lia.
  - intros u. unfold existsInQueue. rewrite filter_filter_keep; [reflexivity|].
    intros x Hx. apply andb_prop in Hx as [_ Hx].
    destruct (r_status x); try discriminate; reflexivity.
  - intros u. unfold wasDownloadedSuccessfully. rewrite filter_filter_none; [reflexivity|].
    intros x Hx. apply andb_prop in Hx as [_ Hx]. apply bool_decide_eq_true_1 in Hx.
    rewrite Hx. reflexivity.
  - intros id r. unfold getById. induction rows as [|x rows IH]; cbn; [discriminate|].
    destruct (bool_decide (r_id x = id)) eqn:E.
    + intros [= ->] Ht. rewrite Ht. cbn. rewrite E. reflexivity.
    + intros Hf Ht. destruct (terminal (r_status x)); cbn; [|rewrite E]; apply IH; assumption.
Qed.

(** ** The registry: listing, statistics, clearing *)

Lemma count_by_status (its : list Item) :
  length its
  = length (filter (fun it => status it = Pending) its)
    + length (filter (fun it => status it = Downloading) its)
    + length (filter (fun it => status it = Paused) its)
    + length (filter (fun it => status it = Completed) its)
    + length (filter (fun it => status it = Error) its)
    + length (filter (fun it => status it = Cancelled) its)
    + length (filter (fun it => status it = Converting) its).
Proof.
  induction its as [|it its IH]; [reflexivity|].
  rewrite !filter_cons. cbn [length]. rewrite IH at 1.
  destruct (status it);
    repeat match goal with
           | |- context [decide (?a = ?b)] =>
               first [ rewrite (decide_True (P := a = b)) by reflexivity
                     | rewrite (decide_False (P := a = b)) by discriminate ]
           end; cbn [length]; lia.
Qed.

Lemma no_item_with_status x (its : list Item) :
  length (filter (fun it => status it = x) its) = 0
  <-> Forall (fun it => status it <> x) its.
Proof.
  induction its as [|it its IH].
  - split; [constructor|reflexivity].
  - rewrite filter_cons. destruct (decide (status it = x)) as [E|E]; cbn.
    + split; [discriminate|]. intros HF. apply Forall_cons in HF as [HF _]. contradiction.
    + rewrite IH, Forall_cons. tauto.
Qed.

(** X8. The five counters of [getStats()] never add up to more than
    [total], and they add up to [total] exactly when no listed item is
    'cancelled' or 'converting': items in those two states are in [total]
    and in no counter. *)
Theorem getStats_accounts_for_all s :
  let st := getStats s in
  st_pending st + st_downloading st + st_paused st + st_completed st + st_error st
    <= st_total st
  /\ (st_pending st + st_downloading st + st_paused st + st_completed st + st_error st
        = st_total st
      <-> Forall (fun it => status it <> Cancelled /\ status it <> Converting) (getQueue s)).
Proof.
  intros st. pose proof (count_by_status (getQueue s)) as H. subst st. cbn.
  rewrite Forall_and, <- !no_item_with_status.
  unfold count_status. split; lia.
Qed.

Lemma map_filter_comm {A B} (f : A -> B) (p : B -> bool) (l : list A) :
  map f (List.filter (fun x => p (f x)) l) = List.filter p (map f l).
Proof.
  induction l as [|x l IH]; cbn; [reflexivity|].
  destruct (p (f x)); cbn; rewrite IH; reflexivity.
Qed.

(** X9. [clearCompleted()] removes from the listing exactly the items that
    are completed, failed or cancelled and keeps the others in their
    order; it touches no item object, no worker, no counter and no row,
    and emits 'cleared'. *)
Theorem clearCompleted_keeps_unfinished pol s ts :
  exists s',
    exec pol clearCompleted s ts = (Done tt, s', ts)
    /\ getQueue s' = List.filter (fun it => negb (terminal (status it))) (getQueue s)
    /\ heap s' = heap s /\ activeDownloads s' = activeDownloads s
    /\ activeProcesses s' = activeProcesses s /\ downloads s' = downloads s
    /\ trace s' = trace s ++ [Emitted EvCleared].
Proof.
  unfold clearCompleted. cbn. eexists. split; [reflexivity|].
  split; [|repeat split].
  unfold getQueue. cbn -[terminal].
  apply (map_filter_comm (fun e => deref e.2 s) (fun it => negb (terminal (status it)))).
Qed.

(** ** Control operations on one job *)

(** X10. [pause], [resume], [cancel] and [remove] of an id that is not
    listed throw 'Item não encontrado' and leave the state as it was. *)
Theorem unknown_id_rejected pol s ts id :
  queue_get id s = None ->
  exec pol (pause id) s ts = (Failed "Item não encontrado", s, ts)
  /\ exec pol (resume id) s ts = (Failed "Item não encontrado", s, ts)
  /\ exec pol (cancel id) s ts = (Failed "Item não encontrado", s, ts)
  /\ exec pol (remove id) s ts = (Failed "Item não encontrado", s, ts).
Proof.
  intros Hq. unfold pause, resume, cancel, remove. cbn. rewrite Hq. repeat split.
Qed.

Lemma unknown_id_rejected_witness :
  exec blocking (pause 7) (store one_running) (tasks one_running)
    = (Failed "Item não encontrado", store one_running, tasks one_running)
  /\ exec blocking (resume 7) (store one_running) (tasks one_running)
    = (Failed "Item não encontrado", store one_running, tasks one_running)
  /\ exec blocking (cancel 7) (store one_running) (tasks one_running)
    = (Failed "Item não encontrado", store one_running, tasks one_running)
  /\ exec blocking (remove 7) (store one_running) (tasks one_running)
    = (Failed "Item não encontrado", store one_running, tasks one_running).
Proof.
  apply (unknown_id_rejected blocking (store one_running) (tasks one_running) 7).
  vm_compute. reflexivity.
Defined.

(** X11. [cancel] of a pending job, run to its end: the record is set to
    'cancelled' first and 'removed' is emitted after that write; the job
    leaves the listing, no counter and no worker is touched, and
    [processNext] is called. *)
Theorem cancel_pending o s ts id a :
  queue_get id s = Some a ->
  status (deref a s) = Pending ->
  exists s' t,
    exec (uninterrupted o) (cancel id) s ts = (Done true, s', ts ++ [t])
    /\ queue s' = map_delete id (queue s)
    /\ heap s' = heap s
    /\ activeDownloads s' = activeDownloads s
    /\ activeProcesses s' = activeProcesses s
    /\ downloads s' = on_row id (row_status Cancelled None None (now s)) (downloads s)
    /\ trace s' = trace s ++ [Persisted (UpdateStatus id Cancelled None None);
                              Emitted (EvRemoved id)].
Proof.
  intros Hq Hst. unfold cancel. cbn. rewrite Hq. cbn. rewrite Hst. decide_status. cbn.
  rewrite Hst. decide_status. cbn.
  destruct (cachedSettings s); cbn; eexists _, _; (split; [reflexivity|]); repeat split;
    cbn; rewrite <- app_assoc; reflexivity.
Qed.

Lemma cancel_pending_witness :
  let s := store one_running_one_waiting in
  let ts := tasks one_running_one_waiting in
  exists s' t,
    exec (uninterrupted sample_oracle) (cancel 1) s ts = (Done true, s', ts ++ [t])
    /\ queue s' = map_delete 1 (queue s)
    /\ heap s' = heap s
    /\ activeDownloads s' = activeDownloads s
    /\ activeProcesses s' = activeProcesses s
    /\ downloads s' = on_row 1 (row_status Cancelled None None (now s)) (downloads s)
    /\ trace s' = trace s ++ [Persisted (UpdateStatus 1 Cancelled None None);
                              Emitted (EvRemoved 1)].
Proof.
  apply (cancel_pending sample_oracle (store one_running_one_waiting)
           (tasks one_running_one_waiting) 1 1); vm_compute; reflexivity.
Defined.

Lemma deref_alter f a s s0 :
  a < length (heap s) -> heap s0 = alter f a (heap s) -> deref a s0 = f (deref a s).
Proof.
  intros Ha H0. unfold deref, Addr. rewrite H0, list_lookup_alter.
  destruct (lookup_lt_is_Some_2 (heap s) a Ha) as [it ->].
  rewrite decide_True by reflexivity. reflexivity.
Qed.

Lemma alter_same {A} (f : A -> A) (a : nat) (l : list A) x :
  l !! a = Some x -> f x = x -> alter f a l = l.
Proof.
  intros Hl Hx. apply list_eq. intros i. rewrite list_lookup_alter.
  destruct (decide (a = i)) as [<-|]; [|reflexivity].
  rewrite Hl. cbn. congruence.
Qed.

Lemma pause_running o s ts id a pid :
  queue_get id s = Some a ->
  a < length (heap s) ->
  status (deref a s) = Downloading ->
  activeProcesses s !! id = Some (pid, false) ->
  exists s1,
    exec (uninterrupted o) (pause id) s ts = (Done true, s1, ts)
    /\ heap s1 = alter (set_status Paused) a (heap s)
    /\ queue s1 = queue s
    /\ activeProcesses s1 = <[id := (pid, true)]> (activeProcesses s)
    /\ activeDownloads s1 = activeDownloads s
    /\ signals_to pid (trace s1) = signals_to pid (trace s) ++ [SIGSTOP].
Proof.
  intros Hq Ha Hst Hp.
  unfold pause. cbn. rewrite Hq. cbn. rewrite Hst. decide_status. cbn.
  rewrite Hp. cbn.
  change (map_get id (queue s)) with (queue_get id s). rewrite Hq. cbn.
  eexists. split; [reflexivity|]. cbn.
  split.
  { rewrite list_alter_alter_eq. apply list_alter_ext; [|reflexivity].
    intros it _. destruct it; reflexivity. }
  repeat (split; [reflexivity|]).
  unfold signals_to. rewrite !omap_app. cbn.
  destruct (decide (pid = pid)) as [_|Hn]; [|destruct Hn; reflexivity].
  rewrite !app_nil_r. reflexivity.
Qed.

Lemma resume_paused o s ts id a pid :
  queue_get id s = Some a ->
  a < length (heap s) ->
  status (deref a s) = Paused ->
  activeProcesses s !! id = Some (pid, true) ->
  exists s2,
    exec (uninterrupted o) (resume id) s ts = (Done true, s2, ts)
    /\ heap s2 = alter (set_status Downloading) a (heap s)
    /\ queue s2 = queue s
    /\ activeProcesses s2 = <[id := (pid, false)]> (activeProcesses s)
    /\ activeDownloads s2 = activeDownloads s
    /\ signals_to pid (trace s2) = signals_to pid (trace s) ++ [SIGCONT].
Proof.
  intros Hq Ha Hst Hp.
  unfold resume. cbn. rewrite Hq. cbn. rewrite Hst. decide_status. cbn.
  rewrite Hp. cbn.
  change (map_get id (queue s)) with (queue_get id s). rewrite Hq. cbn.
  eexists. split; [reflexivity|]. cbn.
  split.
  { rewrite list_alter_alter_eq. apply list_alter_ext; [|reflexivity].
    intros it _. destruct it; reflexivity. }
  repeat (split; [reflexivity|]).
  unfold signals_to. rewrite !omap_app. cbn.
  destruct (decide (pid = pid)) as [_|Hn]; [|destruct Hn; reflexivity].
  rewrite !app_nil_r. reflexivity.
Qed.

(** X12. [pause] and then [resume] of a downloading job with a running
    worker, each run to its end: both return true; in between the item is
    'paused' and the worker is marked paused; afterwards the item objects,
    the listing, the worker's entry and [activeDownloads] are what they
    were before the pause, and the worker was sent SIGSTOP and then
    SIGCONT, nothing else. *)
Theorem pause_then_resume o s ts id a pid :
  queue_get id s = Some a ->
  a < length (heap s) ->
  status (deref a s) = Downloading ->
  activeProcesses s !! id = Some (pid, false) ->
  exists s1 s2,
    exec (uninterrupted o) (pause id) s ts = (Done true, s1, ts)
    /\ status (deref a s1) = Paused
    /\ activeProcesses s1 !! id = Some (pid, true)
    /\ exec (uninterrupted o) (resume id) s1 ts = (Done true, s2, ts)
    /\ heap s2 = heap s /\ queue s2 = queue s
    /\ activeProcesses s2 = activeProcesses s
    /\ activeDownloads s2 = activeDownloads s
    /\ signals_to pid (trace s2) = signals_to pid (trace s) ++ [SIGSTOP; SIGCONT].
Proof.
  intros Hq Ha Hst Hp.
  destruct (pause_running o s ts id a pid Hq Ha Hst Hp)
    as (s1 & He1 & Hh1 & Hq1 & Hp1 & Hn1 & Hs1).
  assert (Hst1 : status (deref a s1) = Paused).
  { rewrite (deref_alter _ a s s1 Ha Hh1). reflexivity. }
  assert (Hp1' : activeProcesses s1 !! id = Some (pid, true)).
  { rewrite Hp1. apply lookup_insert_eq. }
  assert (Hq1' : queue_get id s1 = Some a).
  { unfold queue_get. rewrite Hq1. exact Hq. }
  assert (Ha1 : a < length (heap s1)).
  { rewrite Hh1, length_alter. exact Ha. }
  destruct (resume_paused o s1 ts id a pid Hq1' Ha1 Hst1 Hp1')
    as (s2 & He2 & Hh2 & Hq2 & Hp2 & Hn2 & Hs2).
  exists s1, s2. repeat (split; [assumption|]).
  split.
  { rewrite Hh2, Hh1, list_alter_alter_eq.
    destruct (lookup_lt_is_Some_2 (heap s) a Ha) as [it Hit].
    apply (alter_same _ a (heap s) it Hit).
    unfold deref, Addr in Hst. rewrite Hit in Hst. cbn in Hst.
    destruct it; cbn in *. subst. reflexivity. }
  split; [congruence|].
  split.
  { rewrite Hp2, Hp1, insert_insert_eq. apply insert_id. exact Hp. }
  split; [congruence|].
  rewrite Hs2, Hs1, <- app_assoc. reflexivity.
Qed.

Lemma pause_then_resume_witness :
  let s := store one_running in
  let ts := tasks one_running in
  exists s1 s2,
    exec (uninterrupted sample_oracle) (pause 0) s ts = (Done true, s1, ts)
    /\ status (deref 0 s1) = Paused
    /\ activeProcesses s1 !! 0 = Some (0, true)
    /\ exec (uninterrupted sample_oracle) (resume 0) s1 ts = (Done true, s2, ts)
    /\ heap s2 = heap s /\ queue s2 = queue s
    /\ activeProcesses s2 = activeProcesses s
    /\ activeDownloads s2 = activeDownloads s
    /\ signals_to 0 (trace s2) = signals_to 0 (trace s) ++ [SIGSTOP; SIGCONT].
Proof.
  apply (pause_then_resume sample_oracle (store one_running) (tasks one_running) 0 0 0).
  - vm_compute. reflexivity.
  - vm_compute. lia.
  - vm_compute. reflexivity.
  - vm_compute. reflexivity.
Defined.

(** X13. In the window between a job's admission and the spawning of its
    worker (the item says 'downloading', the adapter knows no process),
    [pause] returns false and changes nothing; likewise [resume] on a
    'paused' item whose worker is not registered as paused. *)
Theorem pause_resume_without_worker pol s ts id a :
  queue_get id s = Some a ->
  (status (deref a s) = Downloading ->
   (forall pid, activeProcesses s !! id <> Some (pid, false)) ->
   exec pol (pause id) s ts = (Done false, s, ts))
  /\ (status (deref a s) = Paused ->
      (forall pid, activeProcesses s !! id <> Some (pid, true)) ->
      exec pol (resume id) s ts = (Done false, s, ts)).
Proof.
  intros Hq. split; intros Hst Hp.
  - unfold pause. cbn. rewrite Hq. cbn. rewrite Hst. decide_status. cbn.
    destruct (activeProcesses s !! id) as [[pid [|]]|] eqn:E; cbn; try reflexivity.
    destruct (Hp pid). reflexivity.
  - unfold resume. cbn. rewrite Hq. cbn. rewrite Hst. decide_status. cbn.
    destruct (activeProcesses s !! id) as [[pid [|]]|] eqn:E; cbn; try reflexivity.
    destruct (Hp pid). reflexivity.
Qed.

Lemma pause_resume_without_worker_witness :
  exec blocking (pause 0) (store one_starting) (tasks one_starting)
  = (Done false, store one_starting, tasks one_starting).
Proof.
  assert (Hq : queue_get 0 (store one_starting) = Some 0) by (vm_compute; reflexivity).
  apply (proj1 (pause_resume_without_worker blocking (store one_starting)
                  (tasks one_starting) 0 0 Hq)).
  - vm_compute. reflexivity.
  - intros pid. vm_compute. discriminate.
Defined.

(** X14. [cancel] in that same window (or of a paused item without a
    registered worker): the call returns true, the job leaves the listing
    and [activeDownloads] goes down by one, but no signal is sent, the
    table is not written (the record keeps its active status), what was
    suspended stays suspended (the job's own [startDownload] among it), and
    only [processNext] is scheduled. *)
Theorem cancel_before_spawn pol s ts id a :
  queue_get id s = Some a ->
  status (deref a s) = Downloading \/ status (deref a s) = Paused ->
  activeProcesses s !! id = None ->
  exists s' t,
    exec pol (cancel id) s ts = (Done true, s', ts ++ [t])
    /\ queue s' = map_delete id (queue s)
    /\ heap s' = heap s
    /\ activeDownloads s' = (activeDownloads s - 1)%Z
    /\ downloads s' = downloads s
    /\ trace s' = trace s ++ [Emitted (EvRemoved id)].
Proof.
  intros Hq Hst Hp. unfold cancel. cbn. rewrite Hq. cbn.
  assert (Hb : bool_decide (status (deref a s) = Downloading)
               || bool_decide (status (deref a s) = Paused) = true).
  { destruct Hst as [-> | ->]; reflexivity. }
  rewrite Hb. cbn. rewrite Hp. cbn.
  assert (Hn : bool_decide (status (deref a s) = Pending) = false).
  { destruct Hst as [-> | ->]; reflexivity. }
  change (deref a (with_activeDownloads (fun n => (n - 1)%Z) s)) with (deref a s).
  rewrite Hn. cbn.
  destruct (cachedSettings s); cbn; eexists _, _; repeat split.
Qed.

Lemma cancel_before_spawn_witness :
  let s := store one_starting in
  let ts := tasks one_starting in
  exists s' t,
    exec blocking (cancel 0) s ts = (Done true, s', ts ++ [t])
    /\ queue s' = map_delete 0 (queue s)
    /\ heap s' = heap s
    /\ activeDownloads s' = (activeDownloads s - 1)%Z
    /\ downloads s' = downloads s
    /\ trace s' = trace s ++ [Emitted (EvRemoved 0)].
Proof.
  apply (cancel_before_spawn blocking (store one_starting) (tasks one_starting) 0 0).
  - vm_compute. reflexivity.
  - left. vm_compute. reflexivity.
  - vm_compute. reflexivity.
Defined.

(** ** Retry *)

(** X15. [retry] of an id the table does not know, or whose record is
    neither 'error' nor 'cancelled', throws and leaves the state as it
    was: the record is not touched and nothing is listed or emitted. *)
Theorem retry_rejected o s ts id :
  (getById id (downloads s) = None ->
     exec (uninterrupted o) (retry id) s ts
       = (Failed "Item não encontrado no histórico", s, ts))
  /\ (forall r, getById id (downloads s) = Some r ->
        r_status r <> Error -> r_status r <> Cancelled ->
        exec (uninterrupted o) (retry id) s ts
          = (Failed "Apenas downloads com erro ou cancelados podem ser re-tentados", s, ts)).
Proof.
  split.
  - intros H. unfold retry. cbn. rewrite H. reflexivity.
  - intros r H H1 H2. unfold retry. cbn. rewrite H.
    rewrite !bool_decide_eq_true_2 by assumption. reflexivity.
Qed.

Lemma retry_rejected_witness :
  exec (uninterrupted sample_oracle) (retry 7) (store first_completed) (tasks first_completed)
    = (Failed "Item não encontrado no histórico",
       store first_completed, tasks first_completed)
  /\ exec (uninterrupted sample_oracle) (retry 0) (store first_completed)
          (tasks first_completed)
    = (Failed "Apenas downloads com erro ou cancelados podem ser re-tentados",
       store first_completed, tasks first_completed).
Proof.
  destruct (retry_rejected sample_oracle (store first_completed) (tasks first_completed) 7)
    as [H7 _].
  destruct (retry_rejected sample_oracle (store first_completed) (tasks first_completed) 0)
    as [_ H0].
  split.
  - apply H7. vm_compute. reflexivity.
  - apply (H0 record_of_completed); [vm_compute; reflexivity|discriminate|discriminate].
Defined.

Lemma map_get_set {V} (k : nat) (v : V) (m : list (nat * V)) :
  map_get k (map_set k v m) = Some v.
Proof.
  induction m as [|[k' v'] m IH]; cbn.
  - rewrite decide_True by reflexivity. reflexivity.
  - destruct (decide (k' = k)) as [->|Hne]; cbn.
    + rewrite decide_True by reflexivity. reflexivity.
    + rewrite decide_False by exact Hne. exact IH.
Qed.

Lemma map_set_keys {V} (k : nat) (v : V) (m : list (nat * V)) :
  map fst (map_set k v m)
  = if bool_decide (is_Some (map_get k m)) then map fst m else map fst m ++ [k].
Proof.
  induction m as [|[k' v'] m IH]; cbn; [reflexivity|].
  destruct (decide (k' = k)) as [->|Hne]; cbn; [reflexivity|].
  rewrite IH. destruct (bool_decide (is_Some (map_get k m))); reflexivity.
Qed.

(** X16. [retry] of a record that is 'error' or 'cancelled', run to its
    end: the record is set to 'pending' first, then a new item object is
    listed under the same id (pending, progress 0, created now, with the
    record's URL, title, type and playlist, and no channel) and announced
    with 'added'; an id that was still listed keeps its place in the
    listing, another is appended; [activeDownloads] is left alone and
    [processNext] is called. *)
Theorem retry_requeues o s ts id r :
  getById id (downloads s) = Some r ->
  r_status r = Error \/ r_status r = Cancelled ->
  let a := length (heap s) in
  let item := mkItem id (r_url r) (r_title r) Pending 0%Q (now s) (r_type r)
                     (r_playlist_id r) None None None in
  exists s' t,
    exec (uninterrupted o) (retry id) s ts = (Done a, s', ts ++ [t])
    /\ queue_get id s' = Some a /\ deref a s' = item
    /\ map fst (queue s')
       = (if bool_decide (is_Some (queue_get id s))
          then map fst (queue s) else map fst (queue s) ++ [id])
    /\ (r_status <$> getById id (downloads s')) = Some Pending
    /\ activeDownloads s' = activeDownloads s
    /\ trace s' = trace s ++ [Persisted (UpdateStatus id Pending None None);
                              Emitted (EvAdded [item])].
Proof.
  intros Hg Hst a item. unfold retry. cbn. rewrite Hg.
  assert (Hb : bool_decide (r_status r <> Error) && bool_decide (r_status r <> Cancelled)
               = false).
  { destruct Hst as [-> | ->]; reflexivity. }
  rewrite Hb. cbn.
  assert (Hrow : (r_status <$> getById id
                    (on_row id (row_status Pending None None (now s)) (downloads s)))
                 = Some Pending).
  { clear -Hg. unfold getById in *. revert Hg.
    induction (downloads s) as [|x rows IH]; cbn; [discriminate|].
    destruct (decide (r_id x = id)) as [Hx|Hx].
    - intros _. cbn. rewrite bool_decide_eq_true_2 by exact Hx. reflexivity.
    - rewrite !bool_decide_eq_false_2 by exact Hx. exact IH. }
  destruct (cachedSettings s); cbn; eexists _, _; (split; [reflexivity|]); cbn;
    (split; [apply map_get_set|]);
    (split; [unfold deref; cbn; rewrite list_lookup_middle by reflexivity; reflexivity|]);
    (split; [apply map_set_keys|]); (split; [exact Hrow|]);
    (split; [reflexivity|]); rewrite <- app_assoc; unfold deref; cbn;
    rewrite list_lookup_middle by reflexivity; reflexivity.
Qed.

Lemma retry_requeues_witness :
  let s := store one_failed in
  let ts := tasks one_failed in
  let r := record_of_failed in
  let item := mkItem 0 (r_url r) (r_title r) Pending 0%Q (now s) (r_type r)
                     (r_playlist_id r) None None None in
  exists s' t,
    exec (uninterrupted sample_oracle) (retry 0) s ts
      = (Done (length (heap s)), s', ts ++ [t])
    /\ queue_get 0 s' = Some (length (heap s)) /\ deref (length (heap s)) s' = item
    /\ map fst (queue s')
       = (if bool_decide (is_Some (queue_get 0 s))
          then map fst (queue s) else map fst (queue s) ++ [0])
    /\ (r_status <$> getById 0 (downloads s')) = Some Pending
    /\ activeDownloads s' = activeDownloads s
    /\ trace s' = trace s ++ [Persisted (UpdateStatus 0 Pending None None);
                              Emitted (EvAdded [item])].
Proof.
  apply (retry_requeues sample_oracle (store one_failed) (tasks one_failed) 0
           record_of_failed).
  - vm_compute. reflexivity.
  - left. reflexivity.
Defined.

(** ** Events of the worker adapter *)

(** The task that an un-awaited [processNext()] leaves behind reads the
    settings; the state is not touched. *)
Lemma head_task_processNext s :
  exists t, head_task processNext s = (s, t).
Proof.
  unfold head_task, processNext, getCached. cbn.
  destruct (cachedSettings s); cbn; eexists; reflexivity.
Qed.

(** X17. Events for a job that is not listed (any more).  The 'progress',
    'paused', 'resumed' and 'cancelled' listeners do nothing at all.
    [handleComplete] and [handleError] emit nothing and write nothing
    either, but they still take one off [activeDownloads] and call
    [processNext]. *)
Theorem events_for_unlisted_job pol s ts id :
  queue_get id s = None ->
  (forall d, Worker.pe_id d = id -> exec pol (on_progress d) s ts = (Done tt, s, ts))
  /\ exec pol (on_paused id) s ts = (Done tt, s, ts)
  /\ exec pol (on_resumed id) s ts = (Done tt, s, ts)
  /\ exec pol (on_cancelled id) s ts = (Done tt, s, ts)
  /\ (forall file, exists t,
        exec pol (handleComplete id file) s ts
        = (Done tt, with_activeDownloads (fun n => n - 1)%Z s, ts ++ [t]))
  /\ (forall e, exists t,
        exec pol (handleError id e) s ts
        = (Done tt, with_activeDownloads (fun n => n - 1)%Z s, ts ++ [t])).
Proof.
  intros Hq.
  split. { intros d <-. unfold on_progress. cbn. rewrite Hq. reflexivity. }
  split. { unfold on_paused. cbn. rewrite Hq. reflexivity. }
  split. { unfold on_resumed. cbn. rewrite Hq. reflexivity. }
  split. { unfold on_cancelled. cbn. rewrite Hq. reflexivity. }
  split.
  - intros file. unfold handleComplete. cbn. rewrite Hq. cbn.
    destruct (cachedSettings s); cbn; eexists; reflexivity.
  - intros e. unfold handleError. cbn. rewrite Hq. cbn.
    destruct (cachedSettings s); cbn; eexists; reflexivity.
Qed.

Lemma events_for_unlisted_job_witness :
  let s := store one_running in
  let ts := tasks one_running in
  (forall d, Worker.pe_id d = 7 -> exec blocking (on_progress d) s ts = (Done tt, s, ts))
  /\ exec blocking (on_paused 7) s ts = (Done tt, s, ts)
  /\ exec blocking (on_resumed 7) s ts = (Done tt, s, ts)
  /\ exec blocking (on_cancelled 7) s ts = (Done tt, s, ts)
  /\ (forall file, exists t,
        exec blocking (handleComplete 7 file) s ts
        = (Done tt, with_activeDownloads (fun n => n - 1)%Z s, ts ++ [t]))
  /\ (forall e, exists t,
        exec blocking (handleError 7 e) s ts
        = (Done tt, with_activeDownloads (fun n => n - 1)%Z s, ts ++ [t])).
Proof.
  apply (events_for_unlisted_job blocking (store one_running) (tasks one_running) 7).
  vm_compute. reflexivity.
Defined.

(** X18. [handleError] for a listed job, run to its end: the item gets
    status 'error' and the message, the record is set to 'error' with the
    message, and only then 'error' is emitted, with the item as it now
    is; after that [activeDownloads] goes down by one and [processNext] is
    called.  The job stays listed. *)
Theorem failure_persisted_then_announced o s ts id a e :
  queue_get id s = Some a ->
  a < length (heap s) ->
  exists s' t,
    exec (uninterrupted o) (handleError id e) s ts = (Done tt, s', ts ++ [t])
    /\ deref a s' = set_error (Some e) (set_status Error (deref a s))
    /\ downloads s' = on_row id (row_status Error None (Some e) (now s)) (downloads s)
    /\ activeDownloads s' = (activeDownloads s - 1)%Z
    /\ queue s' = queue s
    /\ trace s' = trace s ++ [Persisted (UpdateStatus id Error None (Some e));
                              Emitted (EvError (set_error (Some e)
                                                  (set_status Error (deref a s))))].
Proof.
  intros Hq Ha. unfold handleError.
  cbn [exec gets modify bind mbind mret Prog_bind Prog_ret decrement_active updateStatus
       await emit uninterrupted answer fst snd].
  rewrite Hq.
  cbn [exec gets modify bind mbind mret Prog_bind Prog_ret decrement_active updateStatus
       await emit uninterrupted answer fst snd].
  schedule_next_with head_task_processNext. cbn [exec].
  eexists _, _. split; [reflexivity|].
  assert (Hd : forall s0,
            heap s0 = alter (fun it => set_error (Some e) (set_status Error it)) a (heap s) ->
            deref a s0 = set_error (Some e) (set_status Error (deref a s))).
  { intros s0 H0. apply (deref_alter _ a s s0 Ha H0). }
  split; [apply Hd; reflexivity|].
  split; [reflexivity|]. split; [reflexivity|]. split; [reflexivity|].
  cbn. rewrite <- app_assoc. cbn. rewrite !Hd by reflexivity. reflexivity.
Qed.

Lemma failure_persisted_then_announced_witness :
  let s := store one_running in
  let ts := tasks one_running in
  exists s' t,
    exec (uninterrupted sample_oracle) (handleError 0 "Download falhou") s ts
      = (Done tt, s', ts ++ [t])
    /\ deref 0 s' = set_error (Some "Download falhou") (set_status Error (deref 0 s))
    /\ downloads s'
       = on_row 0 (row_status Error None (Some "Download falhou") (now s)) (downloads s)
    /\ activeDownloads s' = (activeDownloads s - 1)%Z
    /\ queue s' = queue s
    /\ trace s' = trace s ++ [Persisted (UpdateStatus 0 Error None (Some "Download falhou"));
                              Emitted (EvError (set_error (Some "Download falhou")
                                                  (set_status Error (deref 0 s))))].
Proof.
  apply (failure_persisted_then_announced sample_oracle (store one_running)
           (tasks one_running) 0 0 "Download falhou").
  - vm_compute. reflexivity.
  - vm_compute. lia.
Defined.

(** X19. [handleComplete] for a listed job, run to its end: the item gets
    status 'completed', progress 100 and the file; the record is set to
    'completed' first, the statistics are written next when the file has a
    size on disk, and 'complete' is emitted last, with the item as it now
    is; after that [activeDownloads] goes down by one and [processNext] is
    called. *)
Theorem completion_persisted_then_announced o s ts id a file :
  queue_get id s = Some a ->
  a < length (heap s) ->
  let size := match truthy file with
              | Some f => default 0 (map_get f (files s))
              | None => 0
              end in
  let it := set_filePath file (set_progress 100%Q (set_status Completed (deref a s))) in
  exists s' t,
    exec (uninterrupted o) (handleComplete id file) s ts = (Done tt, s', ts ++ [t])
    /\ deref a s' = it
    /\ (r_status <$> getById id (downloads s'))
       = (fun _ => Completed) <$> getById id (downloads s)
    /\ activeDownloads s' = (activeDownloads s - 1)%Z
    /\ queue s' = queue s
    /\ trace s' = trace s
                  ++ Persisted (UpdateStatus id Completed file None)
                  :: (if (0 <? size)%nat then [Persisted (UpdateStats id size (channel it))]
                      else [])
                  ++ [Emitted (EvComplete it size)].
Proof.
  intros Hq Ha size it. unfold handleComplete.
  cbn [exec gets modify bind mbind mret Prog_bind Prog_ret decrement_active updateStatus
       await emit uninterrupted answer fst snd].
  rewrite Hq.
  cbn [exec gets modify bind mbind mret Prog_bind Prog_ret decrement_active updateStatus
       await emit uninterrupted answer fst snd].
  assert (Hd : forall s0,
            heap s0 = alter (fun it => set_filePath file (set_progress 100%Q
                                         (set_status Completed it))) a (heap s) ->
            deref a s0 = it).
  { intros s0 H0. apply (deref_alter _ a s s0 Ha H0). }
  assert (Hrow : forall rows,
            (r_status <$> getById id (on_row id (row_status Completed file None (now s)) rows))
            = (fun _ => Completed) <$> getById id rows).
  { intros rows. unfold getById. induction rows as [|x rows IH]; cbn; [reflexivity|].
    destruct (decide (r_id x = id)) as [Hx|Hx].
    - cbn. rewrite !bool_decide_eq_true_2 by exact Hx. reflexivity.
    - rewrite !bool_decide_eq_false_2 by exact Hx. exact IH. }
  assert (Hrow2 : forall f rows, (forall r, r_status (f r) = r_status r) ->
            (forall r, r_id (f r) = r_id r) ->
            (r_status <$> getById id (on_row id f rows)) = (r_status <$> getById id rows)).
  { intros f rows Hf Hi. unfold getById. induction rows as [|x rows IH]; cbn; [reflexivity|].
    destruct (decide (r_id x = id)) as [Hx|Hx].
    - rewrite bool_decide_eq_true_2 by (rewrite Hi; exact Hx).
      rewrite bool_decide_eq_true_2 by exact Hx. cbn. rewrite Hf. reflexivity.
    - rewrite !bool_decide_eq_false_2 by exact Hx. exact IH. }
  change (files (db_write (UpdateStatus id Completed file None)
                   (update_item a (fun it => set_filePath file (set_progress 100%Q
                                               (set_status Completed it))) s)))
    with (files s).
  fold size.
  rewrite !Hd by reflexivity.
  destruct (0 <? size)%nat eqn:Hsz;
    cbn [when exec catch await uninterrupted answer];
    rewrite ?Hd by reflexivity;
    cbn [exec gets modify bind mbind mret Prog_bind Prog_ret decrement_active emit fst snd
         uninterrupted answer];
    schedule_next_with head_task_processNext; cbn [exec]; eexists _, _;
    (split; [reflexivity|]).
  - split; [apply Hd; reflexivity|].
    split.
    { cbn [downloads db_write apply_write observe with_downloads with_activeDownloads
           update_item with_heap].
      rewrite Hrow2; [apply Hrow| |]; intros r; destruct (channel it); reflexivity. }
    split; [reflexivity|]. split; [reflexivity|].
    rewrite ?Hd by reflexivity. cbn. rewrite <- !app_assoc. reflexivity.
  - split; [apply Hd; reflexivity|].
    split; [cbn [downloads db_write apply_write observe with_downloads with_activeDownloads
                update_item with_heap]; apply Hrow|].
    split; [reflexivity|]. split; [reflexivity|].
    rewrite ?Hd by reflexivity. cbn. rewrite <- !app_assoc. reflexivity.
Qed.

Lemma completion_persisted_then_announced_witness :
  let s := store one_running in
  let ts := tasks one_running in
  let file := Some "/downloads/Song.mp3" in
  let size := match truthy file with
              | Some f => default 0 (map_get f (files s))
              | None => 0
              end in
  let it := set_filePath file (set_progress 100%Q (set_status Completed (deref 0 s))) in
  exists s' t,
    exec (uninterrupted sample_oracle) (handleComplete 0 file) s ts
      = (Done tt, s', ts ++ [t])
    /\ deref 0 s' = it
    /\ (r_status <$> getById 0 (downloads s'))
       = (fun _ => Completed) <$> getById 0 (downloads s)
    /\ activeDownloads s' = (activeDownloads s - 1)%Z
    /\ queue s' = queue s
    /\ trace s' = trace s
                  ++ Persisted (UpdateStatus 0 Completed file None)
                  :: (if (0 <? size)%nat then [Persisted (UpdateStats 0 size (channel it))]
                      else [])
                  ++ [Emitted (EvComplete it size)].
Proof.
  apply (completion_persisted_then_announced sample_oracle (store one_running)
           (tasks one_running) 0 0 (Some "/downloads/Song.mp3")).
  - vm_compute. reflexivity.
  - vm_compute. lia.
Defined.

Lemma yt_control_without_worker pol id s ts :
  activeProcesses s !! id = None ->
  exec pol (yt_pause id) s ts = (Done false, s, ts)
  /\ exec pol (yt_resume id) s ts = (Done false, s, ts)
  /\ exec pol (yt_cancel id) s ts = (Done false, s, ts).
Proof.
  intros H. unfold yt_pause, yt_resume, yt_cancel. cbn. rewrite H. repeat split.
Qed.

(** X20. When a worker closes, whatever its exit code, its entry is gone
    from [activeProcesses] by the time the handler returns; the promise of
    [download] is resolved with the file for code 0 and rejected with
    'Download falhou' otherwise; and from then on [pause], [resume] and
    [cancel] of the adapter return false for that job and do nothing. *)
Theorem closed_worker_is_forgotten pol pr code file s ts :
  exists s1 ts1,
    exec blocking (on_close pr code file) s ts
    = (Done (if bool_decide (code = Some 0%Z) then inr file else inl "Download falhou"),
       s1, ts1)
    /\ activeProcesses s1 = delete (p_downloadId pr) (activeProcesses s)
    /\ exec pol (yt_pause (p_downloadId pr)) s1 ts1 = (Done false, s1, ts1)
    /\ exec pol (yt_resume (p_downloadId pr)) s1 ts1 = (Done false, s1, ts1)
    /\ exec pol (yt_cancel (p_downloadId pr)) s1 ts1 = (Done false, s1, ts1).
Proof.
  assert (Hfin : forall s1 ts1,
            activeProcesses s1 = delete (p_downloadId pr) (activeProcesses s) ->
            activeProcesses s1 = delete (p_downloadId pr) (activeProcesses s)
            /\ exec pol (yt_pause (p_downloadId pr)) s1 ts1 = (Done false, s1, ts1)
            /\ exec pol (yt_resume (p_downloadId pr)) s1 ts1 = (Done false, s1, ts1)
            /\ exec pol (yt_cancel (p_downloadId pr)) s1 ts1 = (Done false, s1, ts1)).
  { intros s1 ts1 H. split; [exact H|]. apply yt_control_without_worker.
    rewrite H. apply lookup_delete_eq. }
  unfold on_close. cbn [exec modify bind mbind Prog_bind].
  destruct (bool_decide (code = Some 0%Z)).
  - cbn [exec]. unfold handleComplete. cbn [exec gets bind mbind Prog_bind fst snd].
    destruct (queue_get (p_downloadId pr) _) as [a|] eqn:Hq.
    + cbn. eexists _, _. split; [reflexivity|]. apply Hfin. reflexivity.
    + cbn [exec gets modify bind mbind mret Prog_bind Prog_ret decrement_active fst snd].
      schedule_next_with head_task_processNext. cbn.
      eexists _, _. split; [reflexivity|]. apply Hfin. reflexivity.
  - cbn [exec]. unfold handleError. cbn [exec gets bind mbind Prog_bind fst snd].
    destruct (queue_get (p_downloadId pr) _) as [a|] eqn:Hq.
    + cbn. eexists _, _. split; [reflexivity|]. apply Hfin. reflexivity.
    + cbn [exec gets modify bind mbind mret Prog_bind Prog_ret decrement_active fst snd].
      schedule_next_with head_task_processNext. cbn.
      eexists _, _. split; [reflexivity|]. apply Hfin. reflexivity.
Qed.

(** ** Admission *)

Lemma find_by_value_get (p : nat -> bool) (q : list (nat * nat)) id :
  NoDup (map fst q) ->
  fst <$> List.find (fun e => p (snd e)) q = Some id ->
  exists a, map_get id q = Some a /\ p a = true.
Proof.
  induction q as [|[k a] q IH]; cbn; [discriminate|].
  intros Hnd Hf. apply NoDup_cons in Hnd as [Hk Hnd].
  destruct (p a) eqn:E.
  - cbn in Hf. injection Hf as <-. exists a.
    rewrite decide_True by reflexivity. split; [reflexivity|exact E].
  - destruct (decide (k = id)) as [->|Hne].
    + exfalso. apply Hk.
      destruct (List.find (fun e => p (snd e)) q) as [[k' a']|] eqn:F; [|discriminate].
      cbn in Hf. injection Hf as ->.
      apply find_some in F as [F _].
      apply (in_map fst) in F. apply list_elem_of_In. exact F.
    + apply IH; assumption.
Qed.

(** With every id listed once, the entry the loop of [processNext] stops
    at is the one [queue.get] returns for its id. *)
Lemma first_pending_get s id :
  NoDup (map fst (queue s)) ->
  first_pending s = Some id ->
  exists a, queue_get id s = Some a /\ status (deref a s) = Pending.
Proof.
  intros Hnd Hf.
  destruct (find_by_value_get (fun a => bool_decide (status (deref a s) = Pending))
              (queue s) id Hnd Hf) as (a & Hq & Hp).
  exists a. split; [exact Hq|]. apply bool_decide_eq_true_1 in Hp. exact Hp.
Qed.

(** X21. [processNext], once it has the settings, with a free slot and a
    pending item: it starts exactly one job, the first pending one of the
    listing.  When control comes back, [activeDownloads] is one higher,
    that item is 'downloading' with progress 0 and no other item object
    has changed; nothing has been written or emitted yet, and the job's
    [startDownload] is suspended on its [updateStatus] write. *)
Theorem processNext_starts_one pol st s ts id :
  NoDup (map fst (queue s)) ->
  registry_ok s ->
  (activeDownloads s < Z.of_nat (limit_of st))%Z ->
  first_pending s = Some id ->
  exists a s' k,
    queue_get id s = Some a
    /\ exec pol (start_next st) s ts
       = (Done tt, s', ts ++ [MkTask (WWrite (UpdateStatus id Downloading None None)) k])
    /\ activeDownloads s' = (activeDownloads s + 1)%Z
    /\ heap s' = alter (fun it => set_progress 0%Q (set_status Downloading it)) a (heap s)
    /\ status (deref a s') = Downloading
    /\ queue s' = queue s /\ downloads s' = downloads s /\ trace s' = trace s.
Proof.
  intros Hnd Hok Hlt Hf.
  destruct (first_pending_get s id Hnd Hf) as (a & Hq & Hst).
  assert (Ha : a < length (heap s)).
  { unfold registry_ok in Hok. rewrite Forall_forall in Hok.
    unfold queue_get in Hq. clear -Hq Hok.
    induction (queue s) as [|[k' a'] q IH]; cbn in *; [discriminate|].
    destruct (decide (k' = id)).
    - injection Hq as <-. apply (Hok (k', a')). left.
    - apply IH; [|exact Hq]. intros x Hx. apply Hok. right. exact Hx. }
  exists a. unfold start_next. cbn [exec gets bind mbind Prog_bind fst snd].
  destruct (Z.leb_spec (Z.of_nat (limit_of st)) (activeDownloads s)); [lia|].
  cbn [exec gets bind mbind Prog_bind fst snd]. rewrite Hf. cbn [exec].
  unfold startDownload. cbn. rewrite Hq. cbn.
  eexists _, _. split; [reflexivity|]. split; [reflexivity|].
  split; [reflexivity|]. split; [reflexivity|].
  split; [|repeat split].
  unfold deref, Addr in *. cbn. rewrite list_lookup_alter.
  destruct (lookup_lt_is_Some_2 (heap s) a Ha) as [it ->].
  rewrite decide_True by reflexivity. reflexivity.
Qed.

Lemma processNext_starts_one_witness :
  let s := store one_listed in
  let ts := tasks one_listed in
  exists a s' k,
    queue_get 0 s = Some a
    /\ exec blocking (start_next DEFAULT_SETTINGS) s ts
       = (Done tt, s', ts ++ [MkTask (WWrite (UpdateStatus 0 Downloading None None)) k])
    /\ activeDownloads s' = (activeDownloads s + 1)%Z
    /\ heap s' = alter (fun it => set_progress 0%Q (set_status Downloading it)) a (heap s)
    /\ status (deref a s') = Downloading
    /\ queue s' = queue s /\ downloads s' = downloads s /\ trace s' = trace s.
Proof.
  apply (processNext_starts_one blocking DEFAULT_SETTINGS (store one_listed)
           (tasks one_listed) 0).
  - apply (bool_decide_unpack _). vm_compute. exact I.
  - apply (bool_decide_unpack _). vm_compute. exact I.
  - vm_compute. reflexivity.
  - vm_compute. reflexivity.
Defined.

(** X22. [processNext] with the settings at hand starts nothing, and
    changes nothing, when [activeDownloads] has reached the limit or when
    no listed item is pending (an empty listing included). *)
Theorem processNext_idle pol st s ts :
  (Z.of_nat (limit_of st) <= activeDownloads s)%Z \/ first_pending s = None ->
  exec pol (start_next st) s ts = (Done tt, s, ts).
Proof.
  intros H. unfold start_next. cbn [exec gets bind mbind Prog_bind fst snd].
  destruct (Z.leb_spec (Z.of_nat (limit_of st)) (activeDownloads s)); [reflexivity|].
  destruct H as [H|H]; [lia|].
  cbn [exec gets bind mbind Prog_bind fst snd]. rewrite H. reflexivity.
Qed.

Lemma processNext_idle_witness :
  exec blocking (start_next DEFAULT_SETTINGS) (store first_completed) (tasks first_completed)
  = (Done tt, store first_completed, tasks first_completed).
Proof.
  apply (processNext_idle blocking DEFAULT_SETTINGS (store first_completed)
           (tasks first_completed)).
  right. vm_compute. reflexivity.
Defined.

(** ** Submission *)

(** X23. [add] when there is nothing to add.  If the worker cannot resolve
    the URL, [add] throws 'Erro ao adicionar à fila: ' followed by the
    worker's message and leaves the state as it was.  If the URL resolves
    to no video, [add] returns no item and no skip, creates and writes
    nothing, emits nothing and does not call [processNext]. *)
Theorem add_nothing_to_add o s ts u k force :
  (forall e, info_of o u = inl e ->
     exec (uninterrupted o) (add u k force) s ts
       = (Failed ("Erro ao adicionar à fila: " +:+ e), s, ts))
  /\ (info_of o u = inr [] ->
      exists s', exec (uninterrupted o) (add u k force) s ts = (Done ([], []), s', ts)
                 /\ nothing_created s s').
Proof.
  split.
  - intros e He. unfold add. monad. rewrite exec_catch, exec_bind.
    unfold getInfo, settled. cbn [exec uninterrupted]. rewrite He. reflexivity.
  - intros He. unfold add. monad. rewrite exec_catch, exec_bind.
    unfold getInfo, settled. cbn [exec uninterrupted]. rewrite He.
    destruct k; cbn; eexists; (split; [reflexivity|]); repeat split.
Qed.

Lemma add_nothing_to_add_witness :
  exec (uninterrupted failing_oracle) (add "a" video false)
       (store one_running) (tasks one_running)
  = (Failed ("Erro ao adicionar à fila: " +:+ "ERROR: Unsupported URL"),
     store one_running, tasks one_running).
Proof.
  apply (proj1 (add_nothing_to_add failing_oracle (store one_running) (tasks one_running)
                  "a" video false)).
  reflexivity.
Defined.

Lemma exec_add_one_forced o k pl v s ts :
  exec (uninterrupted o) (add_one k true pl v) s ts
  = (Done (inr (length (heap s))), created k pl v s, ts).
Proof. reflexivity. Qed.

Lemma add_loop_forced o k pl ts vs : forall items skips s,
  registry_ok s ->
  exists new_items s',
    exec (uninterrupted o) (add_loop k true pl vs items skips) s ts
      = (Done (items ++ new_items, skips), s', ts)
    /\ registry_ok s'
    /\ getQueue s' = getQueue s ++ map (fun a => deref a s') new_items
    /\ map (fun a => (url (deref a s'), status (deref a s'))) new_items
       = map (fun v => (video_url v, Pending)) vs
    /\ length (heap s) <= length (heap s')
    /\ (forall a, a < length (heap s) -> deref a s' = deref a s)
    /\ activeDownloads s' = activeDownloads s.
Proof.
  induction vs as [|v rest IH]; intros items skips s Hok.
  - exists [], s. cbn. rewrite !app_nil_r. repeat split; auto.
  - cbn [add_loop]. monad. rewrite exec_bind, exec_add_one_forced.
    pose proof (registry_ok_created k pl v s Hok) as Hok1.
    destruct (IH (items ++ [length (heap s)]) skips (created k pl v s) Hok1)
      as (ni & s' & He & Hok' & Hq & Hm & Hlen & Hder & Hact).
    assert (Hlen1 : length (heap (created k pl v s)) = S (length (heap s))).
    { unfold created. cbn. rewrite length_app. cbn. lia. }
    assert (Hnew : deref (length (heap s)) s' = new_item k pl v s).
    { rewrite Hder by lia. apply deref_created_new. }
    exists (length (heap s) :: ni), s'.
    split; [rewrite <- app_assoc in He; exact He|]. split; [exact Hok'|].
    split. { rewrite Hq, (getQueue_created k pl v s Hok), <- app_assoc. cbn.
             rewrite Hnew. reflexivity. }
    split. { cbn. rewrite Hnew, Hm. reflexivity. }
    split; [lia|].
    split; [intros a Ha; rewrite Hder by lia; apply deref_created; exact Ha|].
    exact Hact.
Qed.

(** X24. [add] with [force]: no duplicate check is made.  One pending
    item is created for every video the URL resolves to, in the order of
    the worker's answer and behind everything already listed, also for a
    URL that has a job in the listing or a completed record; nothing is
    skipped and [activeDownloads] is left alone. *)
Theorem add_forced_creates_all o s ts u k vs :
  info_of o u = inr vs ->
  registry_ok s ->
  exists items s' ts',
    exec (uninterrupted o) (add u k true) s ts = (Done (items, []), s', ts')
    /\ getQueue s' = getQueue s ++ map (fun a => deref a s') items
    /\ map (fun a => (url (deref a s'), status (deref a s'))) items
       = map (fun v => (video_url v, Pending)) vs
    /\ activeDownloads s' = activeDownloads s.
Proof.
  intros Hinfo Hok. unfold add. monad. rewrite exec_catch, exec_bind.
  unfold getInfo, settled. cbn [exec uninterrupted]. rewrite Hinfo. cbn [exec].
  rewrite exec_bind.
  assert (Hpl : exists pl s1,
            exec (uninterrupted o)
              (match k with
               | video => Ret None
               | playlist => bind uuidv4 (fun id => Ret (Some id))
               end) s ts = (Done pl, s1, ts)
            /\ registry_ok s1 /\ getQueue s1 = getQueue s
            /\ activeDownloads s1 = activeDownloads s).
  { destruct k; cbn.
    - exists None, s. auto.
    - eexists _, _. split; [reflexivity|]. split; [|split; reflexivity].
      unfold registry_ok in *. cbn. eapply Forall_impl; [exact Hok|].
      cbn. intros e [H1 H2]. split; [lia|exact H2]. }
  destruct Hpl as (pl & s1 & -> & Hok1 & Hq1 & Hact1).
  rewrite exec_bind.
  destruct (add_loop_forced o k pl ts vs [] [] s1 Hok1)
    as (ni & s2 & He & Hok2 & Hq & Hm & Hlen & Hder & Hact).
  cbn [app] in He. rewrite He. rewrite exec_bind.
  destruct ni as [|a ni]; cbn [fst].
  - cbn. eexists _, _, _. split; [reflexivity|].
    rewrite <- Hq1, <- Hact1. auto.
  - cbn [exec emit modify gets bind].
    schedule_next_with head_task_processNext. cbn.
    eexists _, _, _. split; [reflexivity|].
    rewrite <- Hq1, <- Hact1. auto.
Qed.

Lemma add_forced_creates_all_witness :
  let s := store one_running in
  exists items s' ts',
    exec (uninterrupted sample_oracle) (add "a" video true) s (tasks one_running)
      = (Done (items, []), s', ts')
    /\ getQueue s' = getQueue s ++ map (fun a => deref a s') items
    /\ map (fun a => (url (deref a s'), status (deref a s'))) items
       = map (fun v => (video_url v, Pending)) [sample_video "a"]
    /\ activeDownloads s' = activeDownloads s.
Proof.
  apply (add_forced_creates_all sample_oracle (store one_running) (tasks one_running)
           "a" video [sample_video "a"]).
  - reflexivity.
  - apply (bool_decide_unpack _). vm_compute. exact I.
Defined.

Lemma find_app_hit {A} (f : A -> bool) (l : list A) (x : A) :
  List.find f l = None -> f x = true -> List.find f (l ++ [x]) = Some x.
Proof.
  intros Hl Hx. induction l as [|y l IH]; cbn in *.
  - rewrite Hx. reflexivity.
  - destruct (f y); [discriminate|]. apply IH. exact Hl.
Qed.

(** X25. Submitting the same URL twice.  When [add] (without [force])
    creates a job for a video that had no job and no completed record, a
    second [add] of that URL right after it creates nothing: it returns
    exactly one skip, with reason [in_queue] and the id of the job the
    first call created. *)
Theorem add_twice_skips o s ts u k v :
  info_of o u = inr [v] ->
  registry_ok s ->
  prior (video_url v) s = None ->
  exists a s1 ts1 sk s2,
    exec (uninterrupted o) (add u k false) s ts = (Done ([a], []), s1, ts1)
    /\ url (deref a s1) = video_url v
    /\ exec (uninterrupted o) (add u k false) s1 ts1 = (Done ([], [sk]), s2, ts1)
    /\ nothing_created s1 s2
    /\ sk_url sk = video_url v /\ reason sk = in_queue
    /\ existingId sk = item_id (deref a s1).
Proof.
  intros Hinfo Hok Hp.
  assert (Hdup : forall s0, prior (video_url v) s0 = None -> duplicate_of v s0 = None).
  { intros s0 H0. pose proof (duplicate_of_prior v s0) as Hd.
    destruct (duplicate_of v s0) as [sk|]; [|reflexivity].
    destruct Hd as [_ Hd]. congruence. }
  assert (Hmem : forall pl s0, registry_ok s0 -> prior (video_url v) s0 = None ->
            existsInMemoryQueue (video_url v) (created k pl v s0) = Some (new_item k pl v s0)).
  { intros pl s0 Hok0 H0. unfold existsInMemoryQueue.
    rewrite (getQueue_created k pl v s0 Hok0). apply find_app_hit.
    - unfold prior in H0. unfold existsInMemoryQueue in H0.
      destruct (List.find _ (getQueue s0)); [discriminate|reflexivity].
    - cbn. rewrite bool_decide_eq_true_2 by reflexivity. reflexivity. }
  assert (Hfirst : exists pl s0 s1 ts1,
            exec (uninterrupted o) (add u k false) s ts
              = (Done ([length (heap s0)], []), s1, ts1)
            /\ registry_ok s0 /\ prior (video_url v) s0 = None
            /\ getQueue s1 = getQueue (created k pl v s0)
            /\ heap s1 = heap (created k pl v s0)
            /\ nextId s0 = item_id (new_item k pl v s0)).
  { unfold add. monad. rewrite exec_catch, exec_bind.
    unfold getInfo, settled. cbn [exec uninterrupted]. rewrite Hinfo. cbn [exec].
    rewrite exec_bind.
    destruct k.
    - cbn [exec]. rewrite exec_bind. cbn [add_loop]. monad. rewrite exec_bind.
      rewrite (exec_add_one_new o video None v s ts (Hdup s Hp)).
      cbn [exec bind fst app emit modify gets].
      schedule_next_with head_task_processNext. cbn [exec bind].
      exists None, s. eexists _, _. split; [reflexivity|]. auto.
    - cbn [exec uuidv4 bind]. rewrite exec_bind. cbn [add_loop]. monad. rewrite exec_bind.
      set (s0 := with_nextId (S (nextId s)) s).
      assert (Hok0 : registry_ok s0).
      { unfold registry_ok in *. cbn. eapply Forall_impl; [exact Hok|].
        cbn. intros e [H1 H2]. split; [lia|exact H2]. }
      assert (Hp0 : prior (video_url v) s0 = None) by exact Hp.
      erewrite exec_add_one_new by exact (Hdup s0 Hp0).
      cbn [exec bind fst app emit modify gets].
      schedule_next_with head_task_processNext. cbn [exec bind].
      exists (Some (nextId s)), s0. eexists _, _. split; [reflexivity|]. auto. }
  destruct Hfirst as (pl & s0 & s1 & ts1 & He1 & Hok0 & Hp0 & Hq1 & Hh1 & Hid).
  assert (Hd1 : deref (length (heap s0)) s1 = new_item k pl v s0).
  { unfold deref. rewrite Hh1. apply deref_created_new. }
  assert (Hdup1 : duplicate_of v s1
                  = Some (mkSkipped (video_url v)
                            (or_default (v_title v) (title (new_item k pl v s0)))
                            in_queue (item_id (new_item k pl v s0)) None)).
  { unfold duplicate_of, existsInMemoryQueue. rewrite Hq1.
    pose proof (Hmem pl s0 Hok0 Hp0) as Hm. unfold existsInMemoryQueue in Hm.
    rewrite Hm. reflexivity. }
  destruct (exec_add_single_skip o u k v s1 ts1 _ Hinfo Hdup1) as (s2 & He2 & Hn).
  exists (length (heap s0)), s1, ts1. eexists _, s2.
  split; [exact He1|]. rewrite Hd1.
  split; [reflexivity|]. split; [exact He2|]. split; [exact Hn|].
  repeat split.
Qed.

Lemma add_twice_skips_witness :
  let v := sample_video "b" in
  exists a s1 ts1 sk s2,
    exec (uninterrupted sample_oracle) (add "b" video false)
         (store one_running) (tasks one_running) = (Done ([a], []), s1, ts1)
    /\ url (deref a s1) = video_url v
    /\ exec (uninterrupted sample_oracle) (add "b" video false) s1 ts1
       = (Done ([], [sk]), s2, ts1)
    /\ nothing_created s1 s2
    /\ sk_url sk = video_url v /\ reason sk = in_queue
    /\ existingId sk = item_id (deref a s1).
Proof.
  apply (add_twice_skips sample_oracle (store one_running) (tasks one_running)
           "b" video (sample_video "b")).
  - reflexivity.
  - apply (bool_decide_unpack _). vm_compute. exact I.
  - vm_compute. reflexivity.
Defined.

(** X26, at a listing with [b] waiting: a playlist of [x], [b] and [y]. *)
Lemma add_playlist_skips_duplicates_witness :
  let s := store one_running_one_waiting in
  exists items skips s' ts',
    exec (uninterrupted playlist_oracle) (add "list" playlist false) s
         (tasks one_running_one_waiting) = (Done (items, skips), s', ts')
    /\ length items + length skips = 3
    /\ forall v x, In v [sample_video "x"; sample_video "b"; sample_video "y"] ->
         prior (video_url v) s = Some x ->
         (exists sk, In sk skips /\ sk_url sk = video_url v /\ (reason sk, existingId sk) = x)
         /\ (forall a, In a items -> url (deref a s') <> video_url v).
Proof.
  apply (add_playlist_skips_duplicates playlist_oracle (store one_running_one_waiting)
           (tasks one_running_one_waiting) "list" playlist
           [sample_video "x"; sample_video "b"; sample_video "y"]).
  - reflexivity.
  - apply (bool_decide_unpack _). vm_compute. exact I.
Defined.

(** ** Settings *)



Lemma string_of_uint_digits d : digits_only (NilEmpty.string_of_uint d) = true.
Proof. induction d; cbn; auto. Qed.

Lemma digit_is_plain c :
  is_digit c = true -> is_space c = false /\ c <> "-"%char /\ c <> "+"%char.
Proof.
  destruct c as [[] [] [] [] [] [] [] []]; cbn; intros H; try discriminate H;
    repeat split; discriminate.
Qed.

Lemma parseInt_digits c r :
  is_digit c = true -> digits_only r = true ->
  parseInt (String c r)
  = match digits_to_Z (String c r) with Some z => JNum z | None => JNaN end
  /\ parseInt (String "-" (String c r))
  = match digits_to_Z (String c r) with Some z => JNum (- z) | None => JNaN end.
Proof.
  intros Hc Hr.
  assert (Hs : span_digits (String c r) = (String c r, EmptyString)).
  { apply span_digits_all. cbn. rewrite Hc. exact Hr. }
  destruct (digit_is_plain c Hc) as (Hsp & Hm & Hp).
  split.
  - unfold parseInt. cbn [skip_spaces]. rewrite Hsp.
    assert (Hb : match String c r with
                 | String "-" rest => (true, rest)
                 | String "+" rest => (false, rest)
                 | _ => (false, String c r)
                 end = (false, String c r)).
    { clear -Hm Hp. destruct c as [[] [] [] [] [] [] [] []]; try reflexivity; congruence. }
    rewrite Hb, Hs. cbn [fst]. reflexivity.
  - unfold parseInt. cbn [skip_spaces].
    change (is_space "-") with false. cbv iota beta.
    rewrite Hs. cbn [fst]. reflexivity.
Qed.

Lemma parseInt_string_of_Z z : parseInt (string_of_Z z) = JNum z.
Proof.
  assert (Hu : forall p,
    exists c r, NilZero.string_of_uint (Pos.to_uint p) = String c r
                /\ is_digit c = true /\ digits_only r = true
                /\ digits_to_Z (String c r) = Some (Z.pos p)).
  { intros p. pose proof (DecimalPos.Unsigned.to_uint_nonnil p) as Hn.
    pose proof (string_of_uint_digits (Pos.to_uint p)) as Hd.
    pose proof (NilEmpty.usu (Pos.to_uint p)) as Hb.
    pose proof (DecimalPos.Unsigned.of_to p) as Hv.
    assert (He : NilZero.string_of_uint (Pos.to_uint p)
                 = NilEmpty.string_of_uint (Pos.to_uint p)).
    { destruct (Pos.to_uint p); [congruence|reflexivity..]. }
    rewrite He.
    destruct (NilEmpty.string_of_uint (Pos.to_uint p)) as [|c r] eqn:E.
    { destruct (Pos.to_uint p); try discriminate E. congruence. }
    exists c, r. cbn in Hd. apply andb_prop in Hd as [Hc Hr].
    repeat split; auto.
    unfold digits_to_Z. rewrite Hb. cbn. unfold Z.of_uint. rewrite Hv. reflexivity. }
  destruct z as [|p|p]; [reflexivity| |].
  - destruct (Hu p) as (c & r & He & Hc & Hr & Hz).
    unfold string_of_Z. cbn [Z.to_int NilZero.string_of_int]. rewrite He.
    rewrite (proj1 (parseInt_digits c r Hc Hr)), Hz. reflexivity.
  - destruct (Hu p) as (c & r & He & Hc & Hr & Hz).
    unfold string_of_Z. cbn [Z.to_int NilZero.string_of_int]. rewrite He.
    rewrite (proj2 (parseInt_digits c r Hc Hr)), Hz. reflexivity.
Qed.

Lemma string_of_Z_not_null z : string_of_Z z <> "null".
Proof.
  destruct z as [|p|p]; [discriminate| |discriminate].
  unfold string_of_Z. cbn [Z.to_int NilZero.string_of_int].
  pose proof (string_of_uint_digits (Pos.to_uint p)) as Hd.
  destruct (Pos.to_uint p); cbn in *; discriminate.
Qed.

(** X28. Storing a setting and reading it back.  [null], a boolean, a
    whole number (in the range a number holds exactly) and any text other
    than "null" come back from [parseValue] as the value that
    [getValueType] and [stringifyValue] stored.  The text "null" does not:
    it comes back as [null]. *)
Theorem setting_value_round_trip v :
  storable v ->
  parseValue (stringifyValue v) (getValueType v) = v
  /\ parseValue (stringifyValue (JStr "null")) (getValueType (JStr "null")) = JNull.
Proof.
  intros Hv. split; [|reflexivity]. unfold parseValue.
  destruct v as [|[|]|z| |s]; cbn [stringifyValue getValueType];
    try reflexivity.
  - rewrite decide_False by apply string_of_Z_not_null. apply parseInt_string_of_Z.
  - cbn in Hv. destruct (decide (s = "null")) as [->|]; [congruence|reflexivity].
Qed.

Lemma setting_value_round_trip_witness :
  parseValue (stringifyValue (JNum 3)) (getValueType (JNum 3)) = JNum 3
  /\ parseValue (stringifyValue (JStr "null")) (getValueType (JStr "null")) = JNull.
Proof.
  apply (setting_value_round_trip (JNum 3)). unfold storable, safe_integer. cbn. lia.
Defined.

(** ** Durations *)



